(** * tda-nn: the disk experiment (csv_loader.py and run.py)

    A shallow embedding of the dataset loader, the training and evaluation
    harness, the ensemble driver and the result writer, with the properties
    the specification states about them.

    Python exceptions are values of [exn]; a computation that may raise
    returns a [result].  Rows of the CSV file and batches are lists; lists
    that the code updates by index use stdpp's lookup and insert, with the
    bounds check Python performs written out. *)

From Stdlib Require Import Ascii QArith Qpower.
From stdpp Require Import base list strings gmap pretty.

Local Open Scope Z_scope.
Local Open Scope nat_scope.

(** ** Exceptions and results *)

Inductive exn : Type :=
  | IndexError
  | ValueError
  | TypeError
  | ZeroDivisionError
  | StopIteration
  | ShapeMismatchError.

Inductive result (A : Type) : Type :=
  | Ok (a : A)
  | Raise (e : exn).
Arguments Ok {A} a.
Arguments Raise {A} e.

Global Instance result_ret : MRet result := λ A a, Ok a.
Global Instance result_bind : MBind result := λ A B f m,
  match m with
  | Ok a => f a
  | Raise e => Raise e
  end.

Definition is_Ok {A} (r : result A) : Prop := ∃ a, r = Ok a.
Definition is_Raise {A} (r : result A) : Prop := ∃ e, r = Raise e.

(** [l[i]] for a Python list and a non-negative index. *)
Definition py_index {A} (l : list A) (i : nat) : result A :=
  match l !! i with
  | Some a => Ok a
  | None => Raise IndexError
  end.

(** [t[i]] for an integer index that may be negative (counted from the end). *)
Definition tensor_index {A} (l : list A) (i : Z) : result A :=
  let n := Z.of_nat (length l) in
  if (0 <=? i)%Z then py_index l (Z.to_nat i)
  else if (- n <=? i)%Z then py_index l (Z.to_nat (n + i))
  else Raise IndexError.

(** Run [f] over a list from left to right, stopping at the first exception. *)
Fixpoint traverse {A B} (f : A → result B) (l : list A) : result (list B) :=
  match l with
  | [] => Ok []
  | a :: l' => b ← f a; bs ← traverse f l'; Ok (b :: bs)
  end.

(** ** csv_loader.py *)

Module CsvLoader.
Section csv_loader.
(** [F] is a Python float, [T] an element of a float32 tensor.  The three
    conversions are the library's: [float(s)] on a string (which raises
    ValueError when [s] is not numeric), [Tensor.float()] and
    [Tensor.long()]. *)
Context {F T : Type}.
Variable float_of_string : string → option F.
Variable to_float32 : F → T.
Variable to_long : T → Z.

(** A cell of [csv_data]: a string as read, or the float written back. *)
Inductive cell : Type :=
  | CStr (s : string)
  | CFloat (x : F).

Definition py_float (c : cell) : result F :=
  match c with
  | CStr s =>
      match float_of_string s with
      | Some x => Ok x
      | None => Raise ValueError
      end
  | CFloat x => Ok x
  end.

(** [csv_data[i][j] = float(csv_data[i][j])] *)
Definition convert_cell (i j : nat) (d : list (list cell))
  : result (list (list cell)) :=
  row ← py_index d i;
  c ← py_index row j;
  x ← py_float c;
  Ok (<[i := <[j := CFloat x]> row]> d).

(** [for j in range(len(csv_data[1])): if i != 0: ...] *)
Fixpoint inner_loop (i : nat) (js : list nat) (d : list (list cell))
  : result (list (list cell)) :=
  match js with
  | [] => Ok d
  | j :: js' =>
      d' ← (if decide (i ≠ 0) then convert_cell i j d else Ok d);
      inner_loop i js' d'
  end.

(** [for i in range(len(csv_data)): for j in range(len(csv_data[1])): ...] *)
Fixpoint outer_loop (rows : list nat) (d : list (list cell))
  : result (list (list cell)) :=
  match rows with
  | [] => Ok d
  | i :: rows' =>
      row1 ← py_index d 1;
      d' ← inner_loop i (seq 0 (length row1)) d;
      outer_loop rows' d'
  end.

(** The inner loop seen from the row it updates: the first [w] cells are
    converted, from left to right. *)
Fixpoint convert_prefix (w : nat) (row : list cell) : result (list cell) :=
  match w with
  | 0 => Ok row
  | S w' =>
      match row with
      | [] => Raise IndexError
      | c :: row' =>
          x ← py_float c; row'' ← convert_prefix w' row'; Ok (CFloat x :: row'')
      end
  end.

(** All cells of a row are numeric. *)
Definition numeric_row (r : list string) : Prop :=
  Forall (λ s, is_Some (float_of_string s)) r.

Definition cell_number (c : cell) : result F :=
  match c with
  | CFloat x => Ok x
  | CStr _ => Raise ValueError
  end.

(** [torch.tensor(rows)]: the rows must have one length and hold numbers
    only; the empty list gives an empty tensor. *)
Definition torch_tensor (rows : list (list cell)) : result (list (list F)) :=
  match rows with
  | [] => Ok []
  | r0 :: _ =>
      if forallb (λ r, length r =? length r0) rows
      then traverse (traverse cell_number) rows
      else Raise ValueError
  end.

Record CSVDataset : Type := { csv_tensor : list (list T) }.

(** [CSVDataset.__init__], on the rows [list(csv.reader(csvfile))]. *)
Definition CSVDataset_init (csv_rows : list (list string)) : result CSVDataset :=
  let csv_data := map (map CStr) csv_rows in
  d ← outer_loop (seq 0 (length csv_data)) csv_data;
  t ← torch_tensor (drop 1 d);
  Ok {| csv_tensor := map (map to_float32) t |}.

(** [CSVDataset.__len__] *)
Definition CSVDataset_len (ds : CSVDataset) : nat := length (csv_tensor ds).

(** [CSVDataset.__getitem__]: [(row[:-1], row[-1].long())] *)
Definition CSVDataset_getitem (ds : CSVDataset) (index : Z)
  : result (list T * Z) :=
  row ← tensor_index (csv_tensor ds) index;
  lab ← tensor_index row (-1);
  Ok (take (length row - 1) row, to_long lab).

End csv_loader.
End CsvLoader.

(** ** landscape.py: averaging *)

Module Landscape.

(** A curve is [(x-grid, y-values)]; the driver saves [dim[1]], the
    y-values.  A landscape is indexed by layer, then by dimension. *)
Abbreviation curve := (list Q * list Q)%type.
Abbreviation landscape := (list (list curve)).

Definition shape (L : landscape) : list (list (nat * nat)) :=
  map (map (λ c : curve, (length c.1, length c.2))) L.

Definition xgrid (L : landscape) : list (list (list Q)) :=
  map (map (λ c : curve, c.1)) L.

(** The y-value at layer [i], dimension [j], grid position [k]. *)
Definition y_at (L : landscape) (i j k : nat) : option Q :=
  layer ← L !! i; c ← layer !! j; (c : curve).2 !! k.

Definition add_curve (a c : curve) : curve := (a.1, zip_with Qplus a.2 c.2).

Definition add_landscape (A L : landscape) : landscape :=
  zip_with (zip_with add_curve) A L.

Definition scale_curve (n : nat) (c : curve) : curve :=
  (c.1, map (λ y, Qred (y / inject_Z (Z.of_nat n))) c.2).

(** Modelled from the spec: landscape.py, which defines
    [average_across_networks], is not among the sources.  Section 4.3: for
    every (layer, dimension) the output y-values are the elementwise
    arithmetic mean over the networks, the x-grid is shared and unchanged,
    and landscapes of differing shape are a shape mismatch error.  The
    spec is silent on the empty list; the mean over no network divides by
    zero. *)
Definition average_across_networks (nets : list landscape) : result landscape :=
  match nets with
  | [] => Raise ZeroDivisionError
  | L0 :: rest =>
      if forallb (λ L, bool_decide (shape L = shape L0)) rest
      then Ok (map (map (scale_curve (length nets))) (foldl add_landscape L0 rest))
      else Raise ShapeMismatchError
  end.

Definition lift_plus (a b : option Q) : option Q :=
  match a, b with
  | Some x, Some y => Some (x + y)%Q
  | _, _ => None
  end.

Definition Qsum (l : list Q) : Q := foldr Qplus 0%Q l.

(** The arithmetic mean of the values [l]. *)
Definition mean (l : list Q) : Q := (Qsum l / inject_Z (Z.of_nat (length l)))%Q.

End Landscape.

(** ** run.py *)

Module Run.
Import CsvLoader Landscape.

(** Python floats, as far as the harness compares them: the early-stop
    threshold is any float the command line accepts, the accuracy is the
    quotient of two integers.  Rounding is not modelled. *)
Inductive pyfloat : Type :=
  | Finite (q : Q)
  | PosInf
  | NegInf
  | NaN.

(** [a >= b] *)
Definition float_ge (a b : pyfloat) : bool :=
  match a, b with
  | NaN, _ | _, NaN => false
  | PosInf, _ => true
  | _, NegInf => true
  | Finite x, Finite y => Qle_bool y x
  | Finite _, PosInf => false
  | NegInf, _ => false
  end.

(** [c / n] on two non-negative integers. *)
Definition true_div (c n : nat) : result pyfloat :=
  if n =? 0 then Raise ZeroDivisionError
  else Ok (Finite (Z.of_nat c # Pos.of_nat n)).

(** The value of an option declared with [type=float, nargs='+'] and a
    float default: the default itself when the option is absent, the list
    of the given values (at least one) otherwise. *)
Inductive float_or_list : Type :=
  | PyFloat (x : pyfloat)
  | PyList (xs : list pyfloat).

Definition py_len (v : float_or_list) : result nat :=
  match v with
  | PyFloat _ => Raise TypeError
  | PyList xs => Ok (length xs)
  end.

Definition py_subscript (v : float_or_list) (i : Z) : result pyfloat :=
  match v with
  | PyFloat _ => Raise TypeError
  | PyList xs => tensor_index xs i
  end.

(** [args.training_threshold[-1] if it >= len(args.training_threshold)
     else args.training_threshold[it]] *)
Definition training_threshold (v : float_or_list) (it : nat) : result pyfloat :=
  n ← py_len v;
  if n <=? it then py_subscript v (-1) else py_subscript v (Z.of_nat it).

(** The status lines the program prints. *)
Inductive status_line : Type :=
  | BeginTraining (it : nat)
  | EarlyTerminated (id : nat) (threshold acc : pyfloat)
  | BeginLandscape (it : nat).

(** Split a list into consecutive pieces of [n] elements, the last one
    possibly shorter (a batch sampler that keeps the last batch). *)
Fixpoint chunks_fuel {A} (fuel n : nat) (l : list A) : list (list A) :=
  match fuel with
  | 0 => []
  | S fuel' =>
      match l with
      | [] => []
      | _ :: _ => take n l :: chunks_fuel fuel' n (drop n l)
      end
  end.

Definition chunks {A} (n : nat) (l : list A) : list (list A) :=
  chunks_fuel (length l) n l.

(** The number of batches of one pass over [n] samples. *)
Definition num_batches (n batch_size : nat) : nat :=
  length (chunks batch_size (seq 0 n)).

(** Files the result writer produces. *)
Inductive file_content : Type :=
  | CsvColumn (ys : list Q)
  | Pickle (L : landscape).

Record filesystem : Type :=
  { dirs : gset string;
    files : gmap string file_content }.

Definition csv_dir : string := "./landscapes_csv/".

(** ['./landscapes_csv/layer{}dim{}.csv'.format(layer_id, dim_id)] *)
Definition csv_path (layer_id dim_id : nat) : string :=
  csv_dir +:+ "layer" +:+ pretty layer_id +:+ "dim" +:+ pretty dim_id +:+ ".csv".

Definition mkdir (d : string) (fs : filesystem) : filesystem :=
  {| dirs := {[d]} ∪ dirs fs; files := files fs |}.

(** [np.savetxt(path, ys, delimiter=',')] on a one-dimensional array: one
    value per line. *)
Definition savetxt (path : string) (ys : list Q) (fs : filesystem) : filesystem :=
  {| dirs := dirs fs; files := <[path := CsvColumn ys]> (files fs) |}.

Definition pickle_dump (path : string) (L : landscape) (fs : filesystem) : filesystem :=
  {| dirs := dirs fs; files := <[path := Pickle L]> (files fs) |}.

(** [for dim_id, dim in enumerate(layer): np.savetxt(..., dim[1], ...)] *)
Fixpoint write_dims (layer_id dim_id : nat) (layer : list curve) (fs : filesystem)
  : filesystem :=
  match layer with
  | [] => fs
  | dim :: layer' =>
      write_dims layer_id (S dim_id) layer' (savetxt (csv_path layer_id dim_id) dim.2 fs)
  end.

(** [for layer_id, layer in enumerate(landscape_averages): ...] *)
Fixpoint write_layers (layer_id : nat) (averages : landscape) (fs : filesystem)
  : filesystem :=
  match averages with
  | [] => fs
  | layer :: averages' =>
      write_layers (S layer_id) averages' (write_dims layer_id 0 layer fs)
  end.

(** The body of [if args.save_csv:]. *)
Definition save_csv_files (averages : landscape) (fs : filesystem) : filesystem :=
  let fs' := if decide (csv_dir ∈ dirs fs) then fs else mkdir csv_dir fs in
  write_layers 0 averages fs'.



(** *** The training and evaluation harness *)

Section harness.
(** [T]: tensor elements; [P]: the trainable parameters of a model; [B]:
    its other state (buffers); [G]: the gradients stored with the
    parameters; [O]: the optimizer's accumulators; [R]: the state of the
    random generator; [output], [loss]: values of the autograd graph;
    [LC]: the landscape settings of the command line. *)
Context {F T P B G O R output loss LC : Type}.

(** The collaborators, which are not part of this repository's sources:
    the model (model.py), torch and the landscape computation. *)
Variable float_of_string : string → option F.
Variable to_float32 : F → T.
Variable to_long : T → Z.
Variable manual_seed : Z → R.
Variable randperm : R → nat → list nat * R.
Variable forward : P → B → bool → R → list (list T) → output * B * R.
Variable predictions : output → list Z.
Variable cross_entropy : output → list Z → loss.
Variable nll_loss_sum : output → list Z → Q.
Variable backward : loss → G → G.
Variable zero_grad : G → G.
Variable Adadelta_step : O → Q → P → G → O * P.
Variable Net_init : R → P * B * R.
Variable Adadelta_init : P → O.
Variable no_grad : G.
Variable landscapes_diagrams_from_model :
  P → B → bool → R → list (list T) → LC → nat → landscape * R.

(** The model, its optimizer, the random generator and the output. *)
Record world : Type :=
  { params : P;
    buffers : B;
    training : bool;
    grads : G;
    opt_state : O;
    opt_steps : nat;
    lr : Q;
    rng : R;
    stdout : list status_line }.

Definition set_training (m : bool) (w : world) : world :=
  {| params := params w; buffers := buffers w; training := m;
     grads := grads w; opt_state := opt_state w; opt_steps := opt_steps w;
     lr := lr w; rng := rng w; stdout := stdout w |}.

Definition set_rng (g : R) (w : world) : world :=
  {| params := params w; buffers := buffers w; training := training w;
     grads := grads w; opt_state := opt_state w; opt_steps := opt_steps w;
     lr := lr w; rng := g; stdout := stdout w |}.

Definition set_grads (g : G) (w : world) : world :=
  {| params := params w; buffers := buffers w; training := training w;
     grads := g; opt_state := opt_state w; opt_steps := opt_steps w;
     lr := lr w; rng := rng w; stdout := stdout w |}.

Definition set_lr (q : Q) (w : world) : world :=
  {| params := params w; buffers := buffers w; training := training w;
     grads := grads w; opt_state := opt_state w; opt_steps := opt_steps w;
     lr := q; rng := rng w; stdout := stdout w |}.

Definition print (s : status_line) (w : world) : world :=
  {| params := params w; buffers := buffers w; training := training w;
     grads := grads w; opt_state := opt_state w; opt_steps := opt_steps w;
     lr := lr w; rng := rng w; stdout := stdout w ++ [s] |}.

(** [model(data)]: the forward pass reads the parameters; it may update
    the buffers and use the random generator. *)
Definition model_call (data : list (list T)) (w : world) : output * world :=
  let '(out, b, g) := forward (params w) (buffers w) (training w) (rng w) data in
  (out,
   {| params := params w; buffers := b; training := training w;
      grads := grads w; opt_state := opt_state w; opt_steps := opt_steps w;
      lr := lr w; rng := g; stdout := stdout w |}).

(** [optimizer.step()] *)
Definition optimizer_step (w : world) : world :=
  let '(o, p) := Adadelta_step (opt_state w) (lr w) (params w) (grads w) in
  {| params := p; buffers := buffers w; training := training w;
     grads := grads w; opt_state := o; opt_steps := S (opt_steps w);
     lr := lr w; rng := rng w; stdout := stdout w |}.

(** [scheduler.step()] for [StepLR(optimizer, step_size=1, gamma)] *)
Definition scheduler_step (gamma : Q) (w : world) : world :=
  set_lr (lr w * gamma)%Q w.

(** A [DataLoader(..., shuffle=True)] over the rows [dl_indices] of the
    CSV dataset: all rows for the dataset itself, the rows of a [Subset]
    for a part made by [random_split]. *)
Record DataLoader : Type :=
  { dl_dataset : CSVDataset (T:=T);
    dl_indices : list nat;
    dl_batch_size : nat }.

Definition DataLoader_new (ds : CSVDataset (T:=T)) (indices : list nat)
    (batch_size : nat) : result DataLoader :=
  if batch_size =? 0 then Raise ValueError
  else Ok {| dl_dataset := ds; dl_indices := indices; dl_batch_size := batch_size |}.

(** [iter(loader)]: the batches of one pass, as positions in [dl_indices]. *)
Definition loader_iter (dl : DataLoader) (g : R) : list (list nat) * R :=
  let '(perm, g') := randperm g (length (dl_indices dl)) in
  (chunks (dl_batch_size dl) perm, g').

(** Fetch and collate one batch: [dataset[indices[k]]] for each position. *)
Definition fetch (dl : DataLoader) (batch : list nat)
  : result (list (list T) * list Z) :=
  samples ← traverse (λ k, idx ← py_index (dl_indices dl) k;
                           CSVDataset_getitem to_long (dl_dataset dl) (Z.of_nat idx))
                     batch;
  Ok (map fst samples, map snd samples).

(** The rows of the CSV dataset a batch of positions refers to. *)
Definition batch_rows (dl : DataLoader) (batch : list nat) : list nat :=
  omap (λ k, dl_indices dl !! k) batch.

(** A loader that can be iterated without an exception: a positive batch
    size, and rows the dataset can return. *)
Definition loader_ok (dl : DataLoader) : Prop :=
  0 < dl_batch_size dl ∧
  Forall (λ idx, is_Ok (CSVDataset_getitem to_long (dl_dataset dl) (Z.of_nat idx)))
         (dl_indices dl).

(** [w'] has the parameters, the optimizer and the learning rate of [w],
    and has printed nothing more. *)
Definition same_model (w w' : world) : Prop :=
  params w' = params w ∧ opt_state w' = opt_state w ∧
  opt_steps w' = opt_steps w ∧ lr w' = lr w ∧ stdout w' = stdout w.

(** [next(iter(loader))] *)
Definition next_iter (dl : DataLoader) (w : world) : result (list nat * world) :=
  let '(batches, g) := loader_iter dl (rng w) in
  match batches with
  | [] => Raise StopIteration
  | b :: _ => Ok (b, set_rng g w)
  end.

(** [pred.eq(target.view_as(pred)).sum().item()]: the number of positions
    where the prediction is the target. *)
Definition count_correct (pred target : list Z) : nat :=
  length (filter (λ pt, pt.1 = pt.2) (zip pred target)).

Definition evaluate_once (data : list (list T)) (target : list Z) (w : world)
  : result (pyfloat * world) :=
  let '(out, w1) := model_call data w in
  let pred := predictions out in
  let correct := 0 + count_correct pred target in
  acc ← true_div correct (length data);
  Ok (acc, w1).

(** The body of the loop of [train], from [batch_idx] on. *)
Fixpoint train_batches (train_loader evaluation_loader : DataLoader)
    (id : nat) (threshold : pyfloat) (batches : list (list nat)) (w : world)
  : result world :=
  match batches with
  | [] => Ok w
  | batch :: batches' =>
      '(data, target) ← fetch train_loader batch;
      let w1 := set_grads (zero_grad (grads w)) w in
      let '(out, w2) := model_call data w1 in
      let l := cross_entropy out target in
      '(eval_batch, w3) ← next_iter evaluation_loader w2;
      '(eval_data, eval_target) ← fetch evaluation_loader eval_batch;
      '(acc, w4) ← evaluate_once eval_data eval_target w3;
      if float_ge acc threshold
      then Ok (print (EarlyTerminated id threshold acc) w4)
      else
        let w5 := set_grads (backward l (grads w4)) w4 in
        let w6 := optimizer_step w5 in
        train_batches train_loader evaluation_loader id threshold batches' w6
  end.

Definition train (train_loader evaluation_loader : DataLoader)
    (id : nat) (threshold : pyfloat) (w : world) : result world :=
  let w0 := set_training true w in
  let '(batches, g) := loader_iter train_loader (rng w0) in
  train_batches train_loader evaluation_loader id threshold batches (set_rng g w0).

(** The loop of [evaluate], accumulating [correct] and [test_loss]. *)
Fixpoint evaluate_batches (data_loader : DataLoader) (batches : list (list nat))
    (correct : nat) (test_loss : Q) (w : world) : result (nat * Q * world) :=
  match batches with
  | [] => Ok (correct, test_loss, w)
  | batch :: batches' =>
      '(data, target) ← fetch data_loader batch;
      let '(out, w1) := model_call data w in
      let test_loss' := (test_loss + nll_loss_sum out target)%Q in
      let correct' := correct + count_correct (predictions out) target in
      evaluate_batches data_loader batches' correct' test_loss' w1
  end.

Definition evaluate (data_loader : DataLoader) (w : world)
  : result (pyfloat * Q * world) :=
  let w0 := set_training false w in
  let '(batches, g) := loader_iter data_loader (rng w0) in
  '(correct, test_loss, w1) ← evaluate_batches data_loader batches 0 0%Q (set_rng g w0);
  let n := length (dl_indices data_loader) in
  acc ← true_div correct n;
  if n =? 0 then Raise ZeroDivisionError
  else Ok (acc, (test_loss / inject_Z (Z.of_nat n))%Q, w1).

(** *** The ensemble driver *)

Record Args : Type :=
  { iterations : nat;
    args_training_threshold : float_or_list;
    batch_size : nat;
    epochs : nat;
    args_lr : Q;
    gamma : Q;
    seed : Z;
    landscape_settings : LC;
    data_samples : nat;
    save : option string;
    save_csv : bool }.


(** [random_split(dataset, [len(dataset) - k, k])]: the rows of the two
    parts.  What torch does for a negative length depends on its version;
    it is an error here. *)
Definition random_split (n k : nat) (g : R) : result (list nat * list nat * R) :=
  if n <? k then Raise ValueError
  else
    let '(perm, g') := randperm g n in
    Ok (take (n - k) perm, drop (n - k) perm, g').

(** [for epoch in range(1, args.epochs + 1): train(...); scheduler.step()] *)
Fixpoint train_epochs (train_loader evaluation_loader : DataLoader)
    (it : nat) (threshold : pyfloat) (gamma : Q) (epoch_range : list nat)
    (w : world) : result world :=
  match epoch_range with
  | [] => Ok w
  | _ :: epoch_range' =>
      w1 ← train train_loader evaluation_loader it threshold w;
      train_epochs train_loader evaluation_loader it threshold gamma epoch_range'
        (scheduler_step gamma w1)
  end.

(** [model = Net(); optimizer = optim.Adadelta(model.parameters(), lr)] *)
Definition new_network (lr0 : Q) (g : R) (out : list status_line) : world :=
  let '(p, b, g') := Net_init g in
  {| params := p; buffers := b; training := true; grads := no_grad;
     opt_state := Adadelta_init p; opt_steps := 0; lr := lr0;
     rng := g'; stdout := out |}.

(** [next(iter(landscape_loader))[0]] *)
Definition landscape_batch (landscape_loader : DataLoader) (w : world)
  : result (list nat * world) :=
  next_iter landscape_loader w.

(** One pass of [for it in range(args.iterations)].  The state kept
    between passes is the random generator, the output and
    [landscapes_per_network]. *)
Definition run_network (args : Args)
    (train_loader evaluation_loader landscape_loader : DataLoader)
    (st : R * list status_line * list landscape) (it : nat)
  : result (R * list status_line * list landscape) :=
  let '(g, out, landscapes_per_network) := st in
  let w := new_network (args_lr args) g (out ++ [BeginTraining it]) in
  threshold ← training_threshold (args_training_threshold args) it;
  w1 ← train_epochs train_loader evaluation_loader it threshold (gamma args)
         (seq 1 (epochs args)) w;
  let w2 := print (BeginLandscape it) w1 in
  '(batch, w3) ← landscape_batch landscape_loader w2;
  '(data, _) ← fetch landscape_loader batch;
  let '(L, g') := landscapes_diagrams_from_model (params w3) (buffers w3)
                     (training w3) (rng w3) data (landscape_settings args) it in
  Ok (g', stdout w3, landscapes_per_network ++ [L]).

Fixpoint for_each {S A} (body : S → A → result S) (l : list A) (s : S) : result S :=
  match l with
  | [] => Ok s
  | a :: l' => s' ← body s a; for_each body l' s'
  end.

(** The three loaders of [main]. *)
Definition make_loaders (args : Args) (dataset : CSVDataset (T:=T)) (g : R)
  : result (DataLoader * DataLoader * DataLoader * R) :=
  let n := CSVDataset_len dataset in
  '(dataset1, dataset2, g') ← random_split n (data_samples args) g;
  train_loader ← DataLoader_new dataset (seq 0 n) (batch_size args);
  evaluation_loader ← DataLoader_new dataset (seq 0 n) (data_samples args);
  landscape_loader ← DataLoader_new dataset dataset2 (data_samples args);
  Ok (train_loader, evaluation_loader, landscape_loader, g').

Definition main (args : Args) (csv_rows : list (list string)) (fs : filesystem)
  : result (filesystem * list status_line) :=
  let g0 := manual_seed (seed args) in
  dataset ← CSVDataset_init float_of_string to_float32 csv_rows;
  '(train_loader, evaluation_loader, landscape_loader, g1) ←
    make_loaders args dataset g0;
  '(_, out, landscapes_per_network) ←
    for_each (run_network args train_loader evaluation_loader landscape_loader)
      (seq 0 (iterations args)) (g1, [], []);
  landscape_averages ← average_across_networks landscapes_per_network;
  let fs1 := if save_csv args then save_csv_files landscape_averages fs else fs in
  let fs2 := match save args with
             | Some path =>
                 if decide (path = "") then fs1
                 else pickle_dump path landscape_averages fs1
             | None => fs1
             end in
  Ok (fs2, out).

End harness.

End Run.

(** ** A concrete instance

    A small instance of the collaborators on which the definitions run:
    decimal integers for floats, a model with one integer weight that
    predicts that weight as the class of every input, a shuffle that
    rotates. *)

Module Sample.
Import CsvLoader Landscape Run.

Definition digit_of_ascii (a : Ascii.ascii) : option Z :=
  let n := Ascii.nat_of_ascii a in
  if (48 <=? n) && (n <=? 57) then Some (Z.of_nat (n - 48)) else None.

Fixpoint parse_digits (acc : Z) (s : string) : option Z :=
  match s with
  | EmptyString => Some acc
  | String a s' => d ← digit_of_ascii a; parse_digits (10 * acc + d)%Z s'
  end.

(** [float(s)] on the strings of decimal digits. *)
Definition float_of_string (s : string) : option Z :=
  match s with
  | EmptyString => None
  | String _ _ => parse_digits 0 s
  end.

Definition to_float32 (x : Z) : Z := x.
Definition to_long (x : Z) : Z := x.

Definition randperm (g n : nat) : list nat * nat := (rotate g (seq 0 n), S g).

Definition forward (p : Z) (b : unit) (m : bool) (g : nat) (data : list (list Z))
  : list Z * unit * nat :=
  (map (λ _, p) data, b, g).

Definition predictions (out : list Z) : list Z := out.
Definition cross_entropy (out target : list Z) : Z := 1%Z.
Definition nll_loss_sum (out target : list Z) : Q := 0%Q.
Definition backward (l g : Z) : Z := (g + l)%Z.
Definition zero_grad (g : Z) : Z := 0%Z.
Definition Adadelta_step (o : unit) (rate : Q) (p g : Z) : unit * Z := (o, (p + g)%Z).
Definition Net_init (g : nat) : Z * unit * nat := (0%Z, tt, g).
Definition manual_seed (s : Z) : nat := Z.to_nat s.

(** A landscape stub: one layer, one dimension, a curve of two points made
    of the weight and the number of samples it was given. *)
Definition landscapes_diagrams_from_model (p : Z) (b : unit) (m : bool) (g : nat)
    (data : list (list Z)) (settings : unit) (it : nat) : landscape * nat :=
  ([ [ ([0; 1]%Q, [inject_Z p; inject_Z (Z.of_nat (length data))]) ] ], g).

Definition init := CSVDataset_init float_of_string to_float32.
Definition getitem := CSVDataset_getitem (T:=Z) to_long.
Definition train := Run.train to_long randperm forward predictions cross_entropy
  backward zero_grad Adadelta_step.
Definition train_epochs := Run.train_epochs to_long randperm forward predictions
  cross_entropy backward zero_grad Adadelta_step.
Definition evaluate_once := Run.evaluate_once (T:=Z) (G:=Z) (O:=unit) forward predictions.
Definition evaluate := Run.evaluate (G:=Z) (O:=unit) to_long randperm forward
  predictions nll_loss_sum.

Definition main := Run.main float_of_string to_float32 to_long manual_seed randperm
  forward predictions cross_entropy backward zero_grad Adadelta_step Net_init
  (λ _, tt) 0%Z landscapes_diagrams_from_model.

(** A file with a header and four data rows, and its dataset. *)
Definition disk_rows : list (list string) :=
  [ ["x"; "y"; "class"];
    ["1"; "2"; "0"];
    ["3"; "4"; "1"];
    ["5"; "6"; "0"];
    ["7"; "8"; "1"] ]%string.

Definition disk : CSVDataset (T:=Z) :=
  {| csv_tensor := [ [1; 2; 0]; [3; 4; 1]; [5; 6; 0]; [7; 8; 1] ]%Z |}.

Definition make_loaders := Run.make_loaders (T:=Z) (LC:=unit) randperm.
Definition loader_iter := Run.loader_iter (T:=Z) randperm.
Definition landscape_batch :=
  Run.landscape_batch (T:=Z) (P:=Z) (B:=unit) (G:=Z) (O:=unit) randperm.

(** Both loaders of the harness over the four rows, two rows a batch. *)
Definition loader : DataLoader (T:=Z) :=
  {| dl_dataset := disk; dl_indices := seq 0 4; dl_batch_size := 2 |}.

(** One network, one epoch, one batch for the whole dataset, and two of
    the four rows for the landscape. *)
Definition args : Args (LC:=unit) :=
  {| iterations := 1;
     args_training_threshold := PyList [PosInf];
     batch_size := 64;
     epochs := 1;
     args_lr := 1%Q;
     gamma := (7 # 10)%Q;
     seed := 1%Z;
     landscape_settings := tt;
     data_samples := 2;
     save := None;
     save_csv := true |}.

Definition start : world (P:=Z) (B:=unit) (G:=Z) (O:=unit) (R:=nat) :=
  {| params := 0%Z; buffers := tt; training := true; grads := 0%Z;
     opt_state := tt; opt_steps := 0; lr := 1%Q; rng := 0; stdout := [] |}.

End Sample.

(** * Properties *)

(** ** Results *)

Lemma bind_Ok {A B} (f : A → result B) (m : result A) (b : B) :
  m ≫= f = Ok b ↔ ∃ a, m = Ok a ∧ f a = Ok b.
Proof.
  destruct m as [a|e]; simpl; split.
  - eauto.
  - by intros (a' & [= ->] & ?).
  - done.
  - by intros (a' & ? & ?).
Qed.

Lemma py_index_Ok {A} (l : list A) i a : py_index l i = Ok a ↔ l !! i = Some a.
Proof. unfold py_index. destruct (l !! i); split; congruence. Qed.

Lemma py_index_lookup {A} (l : list A) i a : l !! i = Some a → py_index l i = Ok a.
Proof. apply py_index_Ok. Qed.

Lemma traverse_Ok {A B} (f : A → result B) l k :
  traverse f l = Ok k ↔ Forall2 (λ a b, f a = Ok b) l k.
Proof.
  revert k. induction l as [|a l IH]; intros k; simpl.
  - split; [intros [= <-]; constructor | by inversion 1].
  - split.
    + intros (b & Hb & (bs & Hbs & [= <-])%bind_Ok)%bind_Ok.
      constructor; [done | by apply IH].
    + inversion 1 as [|? b ? bs Hb Hbs]; subst.
      apply IH in Hbs. unfold mbind, result_bind in *. by rewrite Hb, Hbs.
Qed.

Lemma lookup_map {A B} (f : A → B) (l : list A) i : map f l !! i = f <$> l !! i.
Proof. exact (list_lookup_fmap f l i). Qed.

Lemma take_map {A B} (f : A → B) (l : list A) n : take n (map f l) = map f (take n l).
Proof. symmetry. exact (fmap_take f n l). Qed.

Lemma traverse_length {A B} (f : A → result B) l k :
  traverse f l = Ok k → length k = length l.
Proof. intros ?%traverse_Ok. symmetry. by eapply Forall2_length. Qed.

(** ** The dataset loader *)

Module CsvFacts.
Import CsvLoader.

Section csv_facts.
Context {F T : Type}.
Variable float_of_string : string → option F.
Variable to_float32 : F → T.
Variable to_long : T → Z.

Local Abbreviation cell := (@cell F).
Local Abbreviation py_float := (py_float float_of_string).
Local Abbreviation convert_cell := (convert_cell float_of_string).
Local Abbreviation inner_loop := (inner_loop float_of_string).
Local Abbreviation outer_loop := (outer_loop float_of_string).
Local Abbreviation convert_prefix := (convert_prefix float_of_string).
Local Abbreviation CSVDataset_init := (CSVDataset_init float_of_string to_float32).
Local Abbreviation CSVDataset_getitem := (CSVDataset_getitem to_long).

(** For the header row the inner loop does nothing. *)
Lemma inner_loop_header js (d : list (list cell)) : inner_loop 0 js d = Ok d.
Proof. induction js as [|j js IH]; simpl; [done|]. exact IH. Qed.

(** For a data row the inner loop converts the cells [j .. j+k-1]. *)
Lemma inner_loop_row i j k (d : list (list cell)) pre suf :
  i ≠ 0 → d !! i = Some (pre ++ suf) → length pre = j →
  inner_loop i (seq j k) d =
    suf' ← convert_prefix k suf; Ok (<[i := pre ++ suf']> d).
Proof.
  revert j d pre suf. induction k as [|k IH]; intros j d pre suf Hi Hd Hj; simpl.
  - by rewrite list_insert_id.
  - case_decide; [|done]. unfold convert_cell.
    rewrite (py_index_lookup _ _ _ Hd). simpl.
    destruct suf as [|c suf].
    + unfold py_index. rewrite lookup_ge_None_2; [done|].
      rewrite length_app. simpl. lia.
    + unfold py_index. rewrite lookup_app_r by lia.
      replace (j - length pre) with 0 by lia. simpl.
      destruct (py_float c) as [x|e]; simpl; [|done].
      rewrite (IH (S j) _ (pre ++ [CFloat x]) suf); first last.
      * rewrite length_app. simpl. lia.
      * rewrite list_lookup_insert_eq by (by eapply lookup_lt_Some).
        f_equal. rewrite insert_app_r_alt by lia.
        replace (j - length pre) with 0 by lia. simpl. by rewrite <-app_assoc.
      * done.
      * destruct (convert_prefix k suf) as [suf'|e]; simpl; [|done].
        by rewrite list_insert_insert_eq, <-app_assoc.
Qed.

Lemma convert_prefix_length w (row row' : list cell) :
  convert_prefix w row = Ok row' → length row' = length row.
Proof.
  revert row row'. induction w as [|w IH]; intros row row'; simpl.
  - by intros [= ->].
  - destruct row as [|c row]; [done|].
    intros (x & _ & (r & Hr & [= <-])%bind_Ok)%bind_Ok.
    simpl. f_equal. by eapply IH.
Qed.

(** The outer loop from row [i] on: the rows still to visit are converted
    one after the other, the rows before them are left as they are. *)
Lemma outer_loop_rows w (todo pre : list (list cell)) i :
  i ≠ 0 → length pre = i →
  (todo ≠ [] → ∃ r, (pre ++ todo) !! 1 = Some r ∧ length r = w) →
  outer_loop (seq i (length todo)) (pre ++ todo) =
    todo' ← traverse (convert_prefix w) todo; Ok (pre ++ todo').
Proof.
  revert pre i. induction todo as [|r todo IH]; intros pre i Hi Hpre H1; simpl.
  - done.
  - destruct H1 as (r1 & Hr1 & Hw); [done|].
    rewrite (py_index_lookup _ _ _ Hr1). simpl. rewrite Hw.
    rewrite (inner_loop_row i 0 w _ [] r); [|done| |done]; last first.
    { simpl. rewrite lookup_app_r by lia. by replace (i - length pre) with 0 by lia. }
    simpl. destruct (convert_prefix w r) as [r'|e] eqn:Hr; simpl; [|done].
    rewrite insert_app_r_alt by lia.
    replace (i - length pre) with 0 by lia. simpl.
    rewrite (cons_middle r' pre todo), app_assoc.
    rewrite (IH (pre ++ [r']) (S i)); first last.
    + intros _. apply convert_prefix_length in Hr.
      destruct (decide (i = 1)) as [->|].
      * exists r'. rewrite lookup_app_l by (rewrite length_app; simpl; lia).
        rewrite lookup_app_r by lia. rewrite Hpre. simpl. split; [done|].
        rewrite lookup_app_r in Hr1 by lia. rewrite Hpre in Hr1. simpl in Hr1.
        congruence.
      * exists r1. split; [|done].
        rewrite lookup_app_l in Hr1 by lia.
        rewrite <-app_assoc. by rewrite lookup_app_l by lia.
    + rewrite length_app. simpl. lia.
    + done.
    + destruct (traverse (convert_prefix w) todo) as [todo'|e]; simpl; [|done].
      by rewrite <-app_assoc.
Qed.

(** The two loops on a file with a header and at least one data row. *)
Lemma outer_loop_file (h r1 : list cell) rest :
  outer_loop (seq 0 (length (h :: r1 :: rest))) (h :: r1 :: rest) =
    rows ← traverse (convert_prefix (length r1)) (r1 :: rest); Ok (h :: rows).
Proof.
  change (seq 0 (length (h :: r1 :: rest)))
    with (0 :: seq 1 (length (r1 :: rest))).
  cbn [CsvLoader.outer_loop]. unfold py_index at 1. cbn [lookup list_lookup mbind result_bind].
  rewrite inner_loop_header. cbn [mbind result_bind].
  apply (outer_loop_rows (length r1) (r1 :: rest) [h] 1); [done|done|].
  intros _. by exists r1.
Qed.

(** What the conversion of a row of strings returns. *)
Lemma convert_prefix_strings w (r : list string) row' :
  convert_prefix w (map CStr r) = Ok row' →
  w ≤ length r ∧
  ∃ xs, Forall2 (λ s x, float_of_string s = Some x) (take w r) xs ∧
        row' = map CFloat xs ++ map CStr (drop w r).
Proof.
  revert r row'. induction w as [|w IH]; intros r row'; simpl.
  - intros [= <-]. split; [lia|]. exists []. by rewrite take_0, drop_0.
  - destruct r as [|s r]; [done|]. simpl.
    intros (x & Hx & (r' & Hr' & [= <-])%bind_Ok)%bind_Ok.
    destruct (float_of_string s) as [y|] eqn:Hs; [|done]. injection Hx as ->.
    destruct (IH _ _ Hr') as (Hle & xs & Hxs & ->).
    split; [lia|]. exists (x :: xs). split; [by constructor | done].
Qed.

Lemma convert_prefix_numeric (r : list string) xs :
  Forall2 (λ s x, float_of_string s = Some x) r xs →
  convert_prefix (length r) (map CStr r) = Ok (map CFloat xs).
Proof.
  induction 1 as [|s x r xs Hs _ IH]; simpl; [done|].
  rewrite Hs. simpl. by rewrite IH.
Qed.

Lemma traverse_cell_number (row : list cell) ys :
  traverse cell_number row = Ok ys ↔ row = map CFloat ys.
Proof.
  rewrite traverse_Ok. split.
  - induction 1 as [|c y ? ? Hc _ IH]; simpl; [done|].
    destruct c; [done|]. injection Hc as ->. by rewrite IH.
  - intros ->. induction ys; simpl; by constructor.
Qed.

Lemma torch_tensor_numbers (xss : list (list F)) w :
  Forall (λ xs, length xs = w) xss →
  torch_tensor (map (map CFloat) xss) = Ok xss.
Proof.
  intros Hlen. destruct xss as [|xs0 xss]; [done|].
  unfold torch_tensor. cbn [map].
  replace (forallb _ _) with true.
  - apply traverse_Ok. change (Forall2 (λ a b, traverse cell_number a = Ok b)
      (map (map CFloat) (xs0 :: xss)) (xs0 :: xss)).
    generalize (xs0 :: xss). intros l.
    induction l; simpl; constructor; [by apply traverse_cell_number | done].
  - symmetry. apply forallb_forall. intros r Hr.
    change (In r (map (map CFloat) (xs0 :: xss))) in Hr.
    apply in_map_iff in Hr as (xs & <- & Hin).
    apply Nat.eqb_eq. rewrite !length_map.
    rewrite Forall_forall in Hlen.
    rewrite (Hlen xs), (Hlen xs0); [done| by left | by apply list_elem_of_In].
Qed.

(** A well-formed file loads: the tensor holds the parsed data rows. *)
Lemma CSVDataset_init_valid h r1 rest xss :
  Forall (λ r, length r = length r1) rest →
  Forall2 (Forall2 (λ s x, float_of_string s = Some x)) (r1 :: rest) xss →
  CSVDataset_init (h :: r1 :: rest) = Ok {| csv_tensor := map (map to_float32) xss |}.
Proof.
  intros Hlen Hnum. unfold CsvLoader.CSVDataset_init. cbn [map].
  rewrite outer_loop_file. rewrite length_map.
  assert (traverse (convert_prefix (length r1)) (map (map CStr) (r1 :: rest))
          = Ok (map (map CFloat) xss)) as Hrows.
  { apply traverse_Ok. apply Forall2_fmap.
    assert (Forall (λ r, length r = length r1) (r1 :: rest)) as Hall
      by (by constructor).
    clear Hlen. revert Hall. generalize (length r1). intros w.
    induction Hnum as [|r xs rows xss' Hr _ IH]; intros Hall; constructor.
    - apply Forall_cons in Hall as [Hw _]. rewrite <-Hw.
      by apply convert_prefix_numeric.
    - apply IH. by apply Forall_cons in Hall as [_ ?]. }
  cbn [map] in Hrows. rewrite Hrows. cbn [mbind result_bind drop].
  rewrite drop_0, (torch_tensor_numbers xss (length r1)); [done|].
  assert (Forall (λ r, length r = length r1) (r1 :: rest)) as Hall
    by (by constructor).
  clear Hlen Hrows. revert Hall. generalize (length r1). intros w.
  induction Hnum as [|r xs rows xss' Hr _ IH]; intros Hall; constructor.
  - apply Forall_cons in Hall as [Hw _]. rewrite <-Hw.
    symmetry. by eapply Forall2_length.
  - apply IH. by apply Forall_cons in Hall as [_ ?].
Qed.

(** Conversely, when a file with a data row loads, its data rows have the
    width of the first of them and hold numeric cells only. *)
Lemma CSVDataset_init_Ok_inv h r1 rest ds :
  CSVDataset_init (h :: r1 :: rest) = Ok ds →
  Forall (λ r, length r = length r1 ∧ numeric_row float_of_string r) (r1 :: rest).
Proof.
  unfold CsvLoader.CSVDataset_init. cbn [map].
  rewrite outer_loop_file. rewrite length_map.
  intros (d & (rows & Hrows & [= <-])%bind_Ok & (t & Ht & _)%bind_Ok)%bind_Ok.
  cbn [drop] in Ht. rewrite drop_0 in Ht.
  apply traverse_Ok in Hrows.
  change (map CStr r1 :: map (map CStr) rest)
    with (map (map (@CStr F)) (r1 :: rest)) in Hrows.
  apply Forall2_fmap_l in Hrows.
  unfold torch_tensor in Ht. destruct rows as [|row0 rows]; [by inversion Hrows|].
  destruct (forallb _ _) eqn:Hlen in Ht; [|done].
  assert (length row0 = length r1) as Hrow0.
  { inversion Hrows as [|? ? ? ? H0 _]; subst.
    apply convert_prefix_length in H0. by rewrite length_map in H0. }
  rewrite Hrow0 in Hlen. clear Ht Hrow0.
  revert Hlen Hrows. generalize (row0 :: rows) (r1 :: rest) (length r1).
  intros rows' strs w Hlen Hrows.
  induction Hrows as [|r row' strs' rows'' Hr _ IH]; [constructor|].
  cbn [forallb] in Hlen. apply andb_true_iff in Hlen as [Hw Hlen%IH].
  constructor; [|done]. apply Nat.eqb_eq in Hw.
  pose proof (convert_prefix_length _ _ _ Hr) as Hl. rewrite length_map in Hl.
  destruct (convert_prefix_strings _ _ _ Hr) as (_ & xs & Hxs & _).
  split; [lia|]. rewrite take_ge in Hxs by lia.
  unfold numeric_row. apply Forall_forall. intros s Hs.
  apply list_elem_of_lookup in Hs as (k & Hk).
  destruct (Forall2_lookup_l _ _ _ _ _ Hxs Hk) as (x & _ & Hx). by exists x.
Qed.

Lemma numeric_row_parsed (r : list string) :
  numeric_row float_of_string r →
  ∃ xs, Forall2 (λ s x, float_of_string s = Some x) r xs.
Proof.
  induction 1 as [|s r [x Hx] _ [xs IH]]; [by exists []|].
  exists (x :: xs). by constructor.
Qed.

Lemma numeric_rows_parsed (rows : list (list string)) :
  Forall (numeric_row float_of_string) rows →
  ∃ xss, Forall2 (Forall2 (λ s x, float_of_string s = Some x)) rows xss.
Proof.
  induction 1 as [|r rows [xs Hxs]%numeric_row_parsed _ [xss IH]]; [by exists []|].
  exists (xs :: xss). by constructor.
Qed.

(** C4: a file with a header row and data rows of one width [w], with
    numeric data cells and a label column, loads; the dataset has one
    sample per data row (row count minus 1), and the sample at every index
    is the pair of the first [w - 1] parsed cells of that row and the last
    parsed cell converted to an integer. *)
Theorem CSVDataset_valid_samples h r1 rest w :
  Forall (λ r, length r = w) (r1 :: rest) →
  0 < w →
  Forall (numeric_row float_of_string) (r1 :: rest) →
  ∃ ds,
    CSVDataset_init (h :: r1 :: rest) = Ok ds ∧
    CSVDataset_len ds = length (h :: r1 :: rest) - 1 ∧
    ∀ index, index < CSVDataset_len ds →
      ∃ r xs x_last,
        (h :: r1 :: rest) !! S index = Some r ∧
        Forall2 (λ s x, float_of_string s = Some x) r (xs ++ [x_last]) ∧
        length xs = w - 1 ∧
        CSVDataset_getitem ds (Z.of_nat index) =
          Ok (map to_float32 xs, to_long (to_float32 x_last)).
Proof.
  intros Hw Hpos Hnum.
  destruct (numeric_rows_parsed _ Hnum) as [xss Hxss].
  assert (Forall (λ r, length r = length r1) rest) as Hrest.
  { apply Forall_cons in Hw as [-> Hw]. done. }
  eexists. split; [by apply CSVDataset_init_valid|].
  unfold CSVDataset_len. cbn [csv_tensor]. rewrite length_map.
  pose proof (Forall2_length _ _ _ Hxss) as Hlen.
  split; [simpl in *; lia|].
  intros index Hindex.
  destruct (lookup_lt_is_Some_2 xss index) as [row Hrow]; [lia|].
  destruct (Forall2_lookup_r _ _ _ _ _ Hxss Hrow) as (r & Hr & Hparsed).
  assert (length r = w) as Hrw.
  { rewrite Forall_forall in Hw. apply Hw. by eapply list_elem_of_lookup_2. }
  pose proof (Forall2_length _ _ _ Hparsed) as Hrowlen.
  destruct row as [|x0 row0] using rev_ind; [simpl in *; lia|]. clear IHrow0.
  rename row0 into xs, x0 into x_last.
  rewrite length_app in Hrowlen. simpl in Hrowlen.
  exists r, xs, x_last. split_and!; [done|done|lia|].
  unfold CsvLoader.CSVDataset_getitem, tensor_index. cbn [csv_tensor].
  replace (0 <=? Z.of_nat index)%Z with true by (symmetry; apply Z.leb_le; lia).
  rewrite Nat2Z.id.
  assert (map (map to_float32) xss !! index = Some (map to_float32 (xs ++ [x_last])))
    as Hrow' by (by rewrite lookup_map, Hrow).
  rewrite (py_index_lookup _ _ _ Hrow'). cbn [mbind result_bind].
  rewrite length_map, length_app. cbn [length].
  replace (0 <=? -1)%Z with false by done.
  replace (- Z.of_nat (length xs + 1) <=? -1)%Z with true
    by (symmetry; apply Z.leb_le; lia).
  replace (Z.to_nat (Z.of_nat (length xs + 1) + -1)) with (length xs) by lia.
  assert (map to_float32 (xs ++ [x_last]) !! length xs = Some (to_float32 x_last))
    as Hlast.
  { rewrite lookup_map, lookup_app_r by lia. by rewrite Nat.sub_diag. }
  rewrite (py_index_lookup _ _ _ Hlast). cbn [mbind result_bind].
  replace (length xs + 1 - 1) with (length xs) by lia.
  rewrite take_map, take_app_length. done.
Qed.

(** C7, as the loader has it: for a file with a header and at least one
    data row, a non-numeric data cell or two data rows of different width
    make the loader raise, and data rows of one width with numeric cells
    load; the width of the header is never examined. *)
Theorem CSVDataset_init_errors h r1 rest :
  ((∃ r, r ∈ r1 :: rest ∧ ¬ numeric_row float_of_string r) →
   is_Raise (CSVDataset_init (h :: r1 :: rest))) ∧
  ((∃ r r', r ∈ r1 :: rest ∧ r' ∈ r1 :: rest ∧ length r ≠ length r') →
   is_Raise (CSVDataset_init (h :: r1 :: rest))) ∧
  (Forall (λ r, length r = length r1 ∧ numeric_row float_of_string r) (r1 :: rest) →
   is_Ok (CSVDataset_init (h :: r1 :: rest))).
Proof.
  split_and!.
  - intros (r & Hr & Hbad).
    destruct (CSVDataset_init (h :: r1 :: rest)) as [ds|e] eqn:Hinit; [|by exists e].
    apply CSVDataset_init_Ok_inv in Hinit. rewrite Forall_forall in Hinit.
    destruct (Hinit r Hr) as [_ ?]. done.
  - intros (r & r' & Hr & Hr' & Hne).
    destruct (CSVDataset_init (h :: r1 :: rest)) as [ds|e] eqn:Hinit; [|by exists e].
    apply CSVDataset_init_Ok_inv in Hinit. rewrite Forall_forall in Hinit.
    destruct (Hinit r Hr) as [? _], (Hinit r' Hr') as [? _]. congruence.
  - intros Hall.
    destruct (numeric_rows_parsed (r1 :: rest)) as [xss Hxss].
    { eapply Forall_impl; [exact Hall|]. by intros r [_ ?]. }
    eexists. apply CSVDataset_init_valid; [|done].
    apply Forall_cons in Hall as [_ Hall].
    eapply Forall_impl; [exact Hall|]. by intros r [? _].
Qed.

(** C9: a file of exactly one row makes the loader raise IndexError: the
    outer loop visits the row and asks for the length of the second row,
    which is not there.  No dataset, empty or not, is returned. *)
Theorem CSVDataset_init_header_only (h : list string) :
  outer_loop (seq 0 1) [map CStr h] = Raise IndexError ∧
  CSVDataset_init [h] = Raise IndexError ∧
  ∀ ds, CSVDataset_init [h] ≠ Ok ds.
Proof.
  assert (outer_loop (seq 0 1) [map CStr h] = Raise IndexError) as Hloop.
  { cbn [seq CsvLoader.outer_loop]. unfold py_index.
    by rewrite lookup_ge_None_2 by (simpl; lia). }
  assert (CSVDataset_init [h] = Raise IndexError) as Hinit.
  { unfold CsvLoader.CSVDataset_init. cbn [map length]. by rewrite Hloop. }
  split_and!; [done|done|]. intros ds. by rewrite Hinit.
Qed.

(** An empty file has no row to visit and loads as the empty dataset. *)
Lemma CSVDataset_init_empty_file :
  CSVDataset_init [] = Ok {| csv_tensor := [] |}.
Proof. reflexivity. Qed.

(** *** Further properties of the loader *)

Lemma CSVDataset_init_one_row (h : list string) : CSVDataset_init [h] = Raise IndexError.
Proof.
  unfold CsvLoader.CSVDataset_init. cbn [map length seq CsvLoader.outer_loop].
  unfold py_index. by rewrite lookup_ge_None_2 by (simpl; lia).
Qed.

(** X1: the loader succeeds on exactly two kinds of file: the empty file,
    and a file with a header and at least one data row in which every data
    row has the width of the first data row and numeric cells only. *)
Theorem CSVDataset_init_Ok_iff (csv_rows : list (list string)) :
  is_Ok (CSVDataset_init csv_rows) ↔
  csv_rows = [] ∨
  ∃ h r1 rest,
    csv_rows = h :: r1 :: rest ∧
    Forall (λ r, length r = length r1 ∧ numeric_row float_of_string r) (r1 :: rest).
Proof.
  split.
  - intros [ds Hds]. destruct csv_rows as [|h [|r1 rest]]; [by left| |].
    + by rewrite CSVDataset_init_one_row in Hds.
    + right. exists h, r1, rest. split; [done|]. by eapply CSVDataset_init_Ok_inv.
  - intros [->|(h & r1 & rest & -> & Hall)]; [by eexists|].
    destruct (numeric_rows_parsed (r1 :: rest)) as [xss Hxss].
    { eapply Forall_impl; [exact Hall|]. by intros r [_ ?]. }
    eexists. apply CSVDataset_init_valid; [|done].
    apply Forall_cons in Hall as [_ Hall].
    eapply Forall_impl; [exact Hall|]. by intros r [? _].
Qed.

(** X2: the header row is never read: two files that differ in the first
    row only give the same result, dataset or exception. *)
Theorem CSVDataset_init_header_ignored (h h' : list string) (data : list (list string)) :
  CSVDataset_init (h :: data) = CSVDataset_init (h' :: data).
Proof.
  destruct data as [|r1 rest].
  - by rewrite !CSVDataset_init_one_row.
  - unfold CsvLoader.CSVDataset_init. cbn [map]. rewrite !outer_loop_file.
    by destruct (traverse _ _).
Qed.

Lemma CSVDataset_init_Ok_shape (csv_rows : list (list string)) ds :
  CSVDataset_init csv_rows = Ok ds →
  CSVDataset_len ds = length csv_rows - 1 ∧
  ∀ r1, csv_rows !! 1 = Some r1 →
        Forall (λ row, length row = length r1) (csv_tensor ds).
Proof.
  intros Hds. destruct csv_rows as [|h [|r1 rest]].
  - injection Hds as <-. split; [done|]. by intros r1.
  - by rewrite CSVDataset_init_one_row in Hds.
  - pose proof (CSVDataset_init_Ok_inv _ _ _ _ Hds) as Hall.
    destruct (numeric_rows_parsed (r1 :: rest)) as [xss Hxss].
    { eapply Forall_impl; [exact Hall|]. by intros r [_ ?]. }
    rewrite (CSVDataset_init_valid h r1 rest xss) in Hds; [|
      apply Forall_cons in Hall as [_ Hall];
      eapply Forall_impl; [exact Hall|]; by intros r [? _] | done].
    injection Hds as <-. unfold CSVDataset_len. cbn [csv_tensor].
    rewrite length_map. pose proof (Forall2_length _ _ _ Hxss) as Hlen.
    split; [simpl in *; lia|].
    intros ? [= <-]. apply Forall_forall. intros row Hrow%list_elem_of_In.
    apply in_map_iff in Hrow as (xs & <- & Hxs%list_elem_of_In).
    rewrite length_map.
    apply list_elem_of_lookup in Hxs as (k & Hk).
    destruct (Forall2_lookup_r _ _ _ _ _ Hxss Hk) as (r & Hr & Hparsed).
    rewrite <-(Forall2_length _ _ _ Hparsed).
    rewrite Forall_forall in Hall. apply Hall. by eapply list_elem_of_lookup_2.
Qed.


Lemma tensor_index_is_Ok {A} (l : list A) (i : Z) :
  is_Ok (tensor_index l i) ↔ (- Z.of_nat (length l) ≤ i < Z.of_nat (length l))%Z.
Proof.
  unfold tensor_index, py_index.
  destruct (Z.leb_spec 0 i).
  - destruct (l !! Z.to_nat i) as [a|] eqn:Hi.
    + apply lookup_lt_Some in Hi. split; [lia | by eexists].
    + apply lookup_ge_None in Hi. split; [by intros [? ?] | lia].
  - destruct (Z.leb_spec (- Z.of_nat (length l)) i).
    + destruct (l !! Z.to_nat (Z.of_nat (length l) + i)) as [a|] eqn:Hi.
      * split; [lia | by eexists].
      * apply lookup_ge_None in Hi. lia.
    + split; [by intros [? ?] | lia].
Qed.

Lemma tensor_index_elem {A} (l : list A) (i : Z) (a : A) :
  tensor_index l i = Ok a → a ∈ l.
Proof.
  unfold tensor_index.
  destruct (0 <=? i)%Z; [|destruct (_ <=? i)%Z; [|done]];
    intros ?%py_index_Ok; by eapply list_elem_of_lookup_2.
Qed.

(** A negative index counts from the end. *)
Lemma tensor_index_wrap {A} (l : list A) (i : Z) :
  (- Z.of_nat (length l) ≤ i < 0)%Z →
  tensor_index l i = tensor_index l (Z.of_nat (length l) + i).
Proof.
  intros Hi. unfold tensor_index.
  replace (0 <=? i)%Z with false by (symmetry; apply Z.leb_gt; lia).
  replace (- Z.of_nat (length l) <=? i)%Z with true by (symmetry; apply Z.leb_le; lia).
  by replace (0 <=? Z.of_nat (length l) + i)%Z with true
    by (symmetry; apply Z.leb_le; lia).
Qed.

(** X4: on a loaded dataset of [n] samples, [dataset[index]] returns a
    sample exactly for the indices from [-n] to [n - 1], provided the data
    rows have at least one column (with rows of no column every index
    raises); a negative index denotes the sample [n + index]. *)
Theorem CSVDataset_getitem_range (csv_rows : list (list string)) ds r1 (index : Z) :
  CSVDataset_init csv_rows = Ok ds →
  csv_rows !! 1 = Some r1 →
  let n := Z.of_nat (CSVDataset_len ds) in
  (is_Ok (CSVDataset_getitem ds index) ↔ (- n ≤ index < n)%Z ∧ 0 < length r1) ∧
  ((- n ≤ index < 0)%Z →
   CSVDataset_getitem ds index = CSVDataset_getitem ds (n + index)).
Proof.
  intros Hds Hr1 n.
  destruct (CSVDataset_init_Ok_shape _ _ Hds) as [_ Hwidth].
  specialize (Hwidth r1 Hr1). rewrite Forall_forall in Hwidth.
  unfold CsvLoader.CSVDataset_getitem. split; [split|].
  - intros [[feat lab] (row & Hrow & (x & Hx & _)%bind_Ok)%bind_Ok].
    split; [apply tensor_index_is_Ok; by eexists|].
    assert (is_Ok (tensor_index row (-1))) as Hlast%tensor_index_is_Ok by by eexists.
    rewrite <-(Hwidth row) by by eapply tensor_index_elem. lia.
  - intros [Hin Hpos].
    destruct (proj2 (tensor_index_is_Ok (csv_tensor ds) index) Hin) as [row Hrow].
    rewrite Hrow. cbn [mbind result_bind].
    destruct (proj2 (tensor_index_is_Ok row (-1))) as [x ->]; [|by eexists].
    rewrite (Hwidth row) by by eapply tensor_index_elem. lia.
  - intros Hneg. by rewrite (tensor_index_wrap (csv_tensor ds) index).
Qed.





End csv_facts.

(** Every cell of a concrete row parses. *)
Ltac numeric_cells :=
  unfold numeric_row; repeat (apply Forall_cons; split; [by eexists|]);
  by apply Forall_nil.

Lemma CSVDataset_valid_samples_witness :
  let data := tail Sample.disk_rows in
  Forall (λ r, length r = 3) data ∧
  0 < 3 ∧
  Forall (numeric_row Sample.float_of_string) data ∧
  ∃ ds,
    Sample.init Sample.disk_rows = Ok ds ∧
    CSVDataset_len ds = length Sample.disk_rows - 1 ∧
    ∀ index, index < CSVDataset_len ds →
      ∃ r xs x_last,
        Sample.disk_rows !! S index = Some r ∧
        Forall2 (λ s x, Sample.float_of_string s = Some x) r (xs ++ [x_last]) ∧
        length xs = 3 - 1 ∧
        Sample.getitem ds (Z.of_nat index) =
          Ok (map Sample.to_float32 xs, Sample.to_long (Sample.to_float32 x_last)).
Proof.
  assert (Forall (λ r, length r = 3) (tail Sample.disk_rows)) as Hw
    by (repeat constructor).
  assert (Forall (numeric_row Sample.float_of_string) (tail Sample.disk_rows)) as Hnum.
  { repeat (apply Forall_cons; split; [numeric_cells|]). by apply Forall_nil. }
  split_and!; [done|lia|done|].
  apply (CSVDataset_valid_samples Sample.float_of_string Sample.to_float32
           Sample.to_long _ _ _ 3 Hw); [lia|done].
Defined.

(** The sample file loads to the sample dataset. *)
Example init_disk_rows : Sample.init Sample.disk_rows = Ok Sample.disk.
Proof. reflexivity. Qed.

(** C7 as stated fails: the header of this file is wider than its data
    rows, so its rows are of inconsistent width, and yet it loads. *)
Lemma CSVDataset_init_header_width :
  let file := [ ["x"; "y"; "class"; "note"]; ["1"; "2"; "0"] ]%string in
  (∃ r r', r ∈ file ∧ r' ∈ file ∧ length r ≠ length r') ∧
  Sample.init file = Ok {| csv_tensor := [ [1; 2; 0] ]%Z |}.
Proof.
  split; [|reflexivity].
  eexists _, _. split_and!; [by left | right; by left | done].
Qed.

Lemma CSVDataset_init_errors_witness :
  let h := ["x"; "class"]%string in
  let bad_cell := [ ["1"; "a"] ]%string in
  let ragged := [ ["1"; "0"]; ["2"] ]%string in
  let good := [ ["1"; "0"]; ["2"; "1"] ]%string in
  ((∃ r, r ∈ bad_cell ∧ ¬ numeric_row Sample.float_of_string r) ∧
   is_Raise (Sample.init (h :: bad_cell))) ∧
  ((∃ r r', r ∈ ragged ∧ r' ∈ ragged ∧ length r ≠ length r') ∧
   is_Raise (Sample.init (h :: ragged))) ∧
  (Forall (λ r, length r = 2 ∧ numeric_row Sample.float_of_string r) good ∧
   is_Ok (Sample.init (h :: good))).
Proof.
  intros h bad_cell ragged good.
  assert (∃ r, r ∈ bad_cell ∧ ¬ numeric_row Sample.float_of_string r) as Hbad.
  { exists ["1"; "a"]%string. split; [by left|].
    intros [_ [[x Hx] _]%Forall_cons]%Forall_cons. discriminate Hx. }
  assert (∃ r r', r ∈ ragged ∧ r' ∈ ragged ∧ length r ≠ length r') as Hragged.
  { exists ["1"; "0"]%string, ["2"]%string.
    split_and!; [by left | right; by left | done]. }
  assert (Forall (λ r, length r = 2 ∧ numeric_row Sample.float_of_string r) good)
    as Hgood.
  { repeat (apply Forall_cons; split; [split; [done | numeric_cells]|]).
    by apply Forall_nil. }
  split_and!; [done| |done| |done|].
  - exact (proj1 (CSVDataset_init_errors Sample.float_of_string Sample.to_float32
                    h ["1"; "a"]%string []) Hbad).
  - exact (proj1 (proj2 (CSVDataset_init_errors Sample.float_of_string
                    Sample.to_float32 h ["1"; "0"]%string [ ["2"]%string ])) Hragged).
  - exact (proj2 (proj2 (CSVDataset_init_errors Sample.float_of_string
                    Sample.to_float32 h ["1"; "0"]%string [ ["2"; "1"]%string ])) Hgood).
Defined.


Lemma CSVDataset_getitem_range_witness :
  Sample.init Sample.disk_rows = Ok Sample.disk ∧
  Sample.disk_rows !! 1 = Some ["1"; "2"; "0"] ∧
  (is_Ok (Sample.getitem Sample.disk (-4)) ↔ (-4 ≤ -4 < 4)%Z ∧ 0 < 3) ∧
  ((-4 ≤ -4 < 0)%Z → Sample.getitem Sample.disk (-4) = Sample.getitem Sample.disk (4 + -4)).
Proof.
  split; [reflexivity|]. split; [reflexivity|].
  exact (CSVDataset_getitem_range Sample.float_of_string Sample.to_float32
           Sample.to_long Sample.disk_rows Sample.disk ["1"; "2"; "0"] (-4)
           eq_refl eq_refl).
Defined.

(** The first and the last sample, and the indices next to the range. *)
Example getitem_disk :
  Sample.getitem Sample.disk 0 = Ok ([1; 2]%Z, 0%Z) ∧
  Sample.getitem Sample.disk (-1) = Ok ([7; 8]%Z, 1%Z) ∧
  Sample.getitem Sample.disk 4 = Raise IndexError ∧
  Sample.getitem Sample.disk (-5) = Raise IndexError.
Proof. by split_and!. Qed.


End CsvFacts.

(** ** The harness and the driver *)

Module RunFacts.
Import CsvLoader Landscape Run.

(** *** The early-stop threshold of an iteration *)

(** C2, the scalar case: the default of the option is the float
    [math.inf], not a list, and [len] of a float raises TypeError in every
    iteration, so no threshold is resolved. *)
Theorem training_threshold_default_raises (t : pyfloat) (it : nat) :
  training_threshold (PyFloat t) it = Raise TypeError.
Proof. reflexivity. Qed.

Lemma tensor_index_nat {A} (l : list A) (i : nat) : tensor_index l (Z.of_nat i) = py_index l i.
Proof.
  unfold tensor_index.
  replace (0 <=? Z.of_nat i)%Z with true by (symmetry; apply Z.leb_le; lia).
  by rewrite Nat2Z.id.
Qed.

Lemma tensor_index_last {A} (l : list A) (a : A) :
  last l = Some a → tensor_index l (-1) = Ok a.
Proof.
  intros Hlast. unfold tensor_index.
  assert (0 < length l) by (destruct l; [done | simpl; lia]).
  replace (0 <=? -1)%Z with false by done.
  replace (- Z.of_nat (length l) <=? -1)%Z with true
    by (symmetry; apply Z.leb_le; lia).
  apply py_index_lookup. rewrite last_lookup in Hlast.
  by replace (Z.to_nat (Z.of_nat (length l) + -1)) with (pred (length l)) by lia.
Qed.

(** A list of thresholds: entry [it] while there is one. *)
Lemma training_threshold_entry (ts : list pyfloat) (it : nat) (t : pyfloat) :
  ts !! it = Some t → training_threshold (PyList ts) it = Ok t.
Proof.
  intros Hit. unfold training_threshold. cbn [py_len mbind result_bind].
  apply lookup_lt_Some in Hit as Hlt.
  replace (length ts <=? it) with false by (symmetry; apply Nat.leb_gt; lia).
  cbn [py_subscript]. rewrite tensor_index_nat. by apply py_index_lookup.
Qed.

(** A list of thresholds: the last entry from iteration [len] on. *)
Lemma training_threshold_clamp (ts : list pyfloat) (it : nat) (t : pyfloat) :
  length ts ≤ it → last ts = Some t → training_threshold (PyList ts) it = Ok t.
Proof.
  intros Hle Hlast. unfold training_threshold. cbn [py_len mbind result_bind].
  replace (length ts <=? it) with true by (symmetry; apply Nat.leb_le; lia).
  cbn [py_subscript]. by apply tensor_index_last.
Qed.

(** One threshold given on the command line is used in every iteration. *)
Lemma training_threshold_single (t : pyfloat) (it : nat) :
  training_threshold (PyList [t]) it = Ok t.
Proof.
  destruct it as [|it].
  - by apply training_threshold_entry.
  - apply training_threshold_clamp; [simpl; lia | done].
Qed.

(** *** Batches *)

Lemma chunks_fuel_concat {A} (fuel n : nat) (l : list A) :
  0 < n → length l ≤ fuel → concat (chunks_fuel fuel n l) = l.
Proof.
  intros Hn. revert l. induction fuel as [|fuel IH]; intros l Hl.
  - destruct l; [done | simpl in Hl; lia].
  - destruct l as [|a l]; [done|].
    cbn [chunks_fuel concat]. rewrite IH.
    + apply take_drop.
    + rewrite length_drop. simpl in *. lia.
Qed.

Lemma chunks_concat {A} (n : nat) (l : list A) : 0 < n → concat (chunks n l) = l.
Proof. intros. by apply chunks_fuel_concat. Qed.

Lemma chunks_fuel_nonempty {A} (fuel n : nat) (l : list A) :
  0 < n → Forall (λ b, b ≠ []) (chunks_fuel fuel n l).
Proof.
  intros Hn. revert l. induction fuel as [|fuel IH]; intros l; [constructor|].
  destruct l as [|a l]; [constructor|].
  cbn [chunks_fuel]. constructor; [|apply IH].
  destruct n; [lia | done].
Qed.

Lemma chunks_fuel_length {A B} (fuel n : nat) (l : list A) (k : list B) :
  length l = length k → length (chunks_fuel fuel n l) = length (chunks_fuel fuel n k).
Proof.
  revert l k. induction fuel as [|fuel IH]; intros l k Hlen; [done|].
  destruct l, k; try done. cbn [chunks_fuel length]. f_equal.
  apply IH. rewrite !length_drop. by rewrite Hlen.
Qed.

Lemma chunks_length {A} (n : nat) (l : list A) :
  length (chunks n l) = num_batches (length l) n.
Proof.
  unfold num_batches, chunks. rewrite length_seq.
  apply chunks_fuel_length. by rewrite length_seq.
Qed.

(** *** The training loop *)

Section harness_facts.
Context {F T P B G O R output loss LC : Type}.
Variable float_of_string : string → option F.
Variable to_float32 : F → T.
Variable to_long : T → Z.
Variable manual_seed : Z → R.
Variable randperm : R → nat → list nat * R.
Variable forward : P → B → bool → R → list (list T) → output * B * R.
Variable predictions : output → list Z.
Variable cross_entropy : output → list Z → loss.
Variable nll_loss_sum : output → list Z → Q.
Variable backward : loss → G → G.
Variable zero_grad : G → G.
Variable Adadelta_step : O → Q → P → G → O * P.
Variable Net_init : R → P * B * R.
Variable Adadelta_init : P → O.
Variable no_grad : G.
Variable landscapes_diagrams_from_model :
  P → B → bool → R → list (list T) → LC → nat → landscape * R.

(** A shuffle is a permutation of the positions. *)
Hypothesis randperm_perm : ∀ g n, (randperm g n).1 ≡ₚ seq 0 n.

Local Abbreviation world := (@world P B G O R).
Local Abbreviation DataLoader := (@DataLoader T).
Local Abbreviation model_call := (model_call (G:=G) (O:=O) forward).
Local Abbreviation optimizer_step := (optimizer_step (B:=B) (R:=R) Adadelta_step).
Local Abbreviation loader_iter := (loader_iter (T:=T) randperm).
Local Abbreviation fetch := (fetch to_long).
Local Abbreviation loader_ok := (loader_ok to_long).
Local Abbreviation next_iter := (next_iter (P:=P) (B:=B) (G:=G) (O:=O) randperm).
Local Abbreviation evaluate_once := (evaluate_once (G:=G) (O:=O) forward predictions).
Local Abbreviation train_batches :=
  (train_batches to_long randperm forward predictions cross_entropy backward
     zero_grad Adadelta_step).
Local Abbreviation train :=
  (train to_long randperm forward predictions cross_entropy backward
     zero_grad Adadelta_step).
Local Abbreviation train_epochs :=
  (train_epochs to_long randperm forward predictions cross_entropy backward
     zero_grad Adadelta_step).
Local Abbreviation evaluate_batches :=
  (evaluate_batches (G:=G) (O:=O) to_long forward predictions nll_loss_sum).
Local Abbreviation evaluate :=
  (evaluate (G:=G) (O:=O) to_long randperm forward predictions nll_loss_sum).

Lemma same_model_refl (w : world) : same_model w w.
Proof. by repeat split. Qed.

Lemma same_model_trans (w1 w2 w3 : world) :
  same_model w1 w2 → same_model w2 w3 → same_model w1 w3.
Proof. unfold same_model. intros (?&?&?&?&?) (?&?&?&?&?). split_and!; congruence. Qed.

(** The forward pass changes the buffers and the generator only. *)
Lemma model_call_same_model data (w : world) :
  same_model w (model_call data w).2 ∧ training (model_call data w).2 = training w.
Proof.
  unfold Run.model_call.
  by destruct (forward _ _ _ _ _) as [[out b] g].
Qed.

Lemma set_rng_same_model g (w : world) : same_model w (set_rng g w).
Proof. by repeat split. Qed.

Lemma traverse_total {A A'} (f : A → result A') (l : list A) :
  Forall (λ a, is_Ok (f a)) l → ∃ k, traverse f l = Ok k.
Proof.
  induction 1 as [|a l [b Hb] _ [k IH]]; [by exists []|].
  exists (b :: k). simpl. by rewrite Hb, IH.
Qed.

(** Fetching a batch of positions of a good loader succeeds. *)
Lemma fetch_ok (dl : DataLoader) (batch : list nat) :
  loader_ok dl →
  Forall (λ k, k < length (dl_indices dl)) batch →
  ∃ data target, fetch dl batch = Ok (data, target) ∧ length data = length batch.
Proof.
  intros [_ Hrows] Hbatch. unfold Run.fetch.
  edestruct (traverse_total
    (λ k, idx ← py_index (dl_indices dl) k;
          CSVDataset_getitem to_long (dl_dataset dl) (Z.of_nat idx)) batch)
    as [samples Hsamples].
  { eapply Forall_impl; [exact Hbatch|]. intros k Hk. simpl in Hk.
    destruct (lookup_lt_is_Some_2 _ _ Hk) as [idx Hidx].
    rewrite (py_index_lookup _ _ _ Hidx). cbn [mbind result_bind].
    rewrite Forall_forall in Hrows. apply Hrows.
    by eapply list_elem_of_lookup_2. }
  rewrite Hsamples. cbn [mbind result_bind]. eexists _, _. split; [done|].
  rewrite length_map. by eapply traverse_length.
Qed.

(** One pass of a loader: non-empty batches of valid positions which
    together are a permutation of all positions. *)
Lemma loader_iter_batches (dl : DataLoader) (g : R) :
  0 < dl_batch_size dl →
  let batches := (loader_iter dl g).1 in
  concat batches ≡ₚ seq 0 (length (dl_indices dl)) ∧
  Forall (λ b, b ≠ [] ∧ Forall (λ k, k < length (dl_indices dl)) b) batches ∧
  length batches = num_batches (length (dl_indices dl)) (dl_batch_size dl).
Proof.
  intros Hbs. unfold Run.loader_iter.
  pose proof (randperm_perm g (length (dl_indices dl))) as Hperm.
  destruct (randperm g _) as [perm g']. cbn [fst] in *.
  assert (concat (chunks (dl_batch_size dl) perm) = perm) as Hcat
    by by apply chunks_concat.
  split_and!.
  - by rewrite Hcat.
  - apply Forall_forall. intros b Hb. split.
    + pose proof (chunks_fuel_nonempty (length perm) _ perm Hbs) as Hne.
      rewrite Forall_forall in Hne. by apply Hne.
    + apply Forall_forall. intros k Hk.
      assert (k ∈ perm) as Hin.
      { rewrite <-Hcat. apply list_elem_of_In, in_concat.
        exists b. split; by apply list_elem_of_In. }
      rewrite Hperm in Hin. apply elem_of_seq in Hin. lia.
  - rewrite chunks_length. f_equal.
    rewrite (Permutation_length Hperm). apply length_seq.
Qed.

Lemma loader_iter_nonempty (dl : DataLoader) (g : R) :
  0 < dl_batch_size dl → dl_indices dl ≠ [] → (loader_iter dl g).1 ≠ [].
Proof.
  intros Hbs Hne Hnil.
  destruct (loader_iter_batches dl g Hbs) as (Hperm & _ & _).
  rewrite Hnil in Hperm. simpl in Hperm.
  apply Permutation_length in Hperm. rewrite length_seq in Hperm.
  destruct (dl_indices dl); [done | done].
Qed.

Lemma loader_iter_empty (dl : DataLoader) (g : R) :
  0 < dl_batch_size dl → dl_indices dl = [] → (loader_iter dl g).1 = [].
Proof.
  intros Hbs Hnil.
  destruct (loader_iter_batches dl g Hbs) as (Hperm & Hall & _).
  rewrite Hnil in Hall. destruct (loader_iter dl g).1 as [|b ?]; [done|].
  apply Forall_cons in Hall as [[Hb Hks] _].
  destruct b as [|k b]; [done|]. apply Forall_cons in Hks as [Hk _].
  simpl in Hk. lia.
Qed.

(** [next(iter(loader))] on a good, non-empty loader. *)
Lemma next_iter_ok (dl : DataLoader) (w : world) :
  loader_ok dl → dl_indices dl ≠ [] →
  ∃ b g, next_iter dl w = Ok (b, set_rng g w) ∧ b ≠ [] ∧
         Forall (λ k, k < length (dl_indices dl)) b.
Proof.
  intros [Hbs _] Hne. unfold Run.next_iter.
  pose proof (loader_iter_batches dl (rng w) Hbs) as (_ & Hall & _).
  pose proof (loader_iter_nonempty dl (rng w) Hbs Hne) as Hnonempty.
  destruct (loader_iter dl (rng w)) as [[|b batches] g]; [done|].
  apply Forall_cons in Hall as [[? ?] _]. by exists b, g.
Qed.

(** The accuracy of a non-empty batch is a non-negative fraction, and
    computing it leaves the model as it is. *)
Lemma evaluate_once_ok data target (w : world) :
  data ≠ [] →
  ∃ q w', evaluate_once data target w = Ok (Finite q, w') ∧ (0 <= q)%Q ∧
          same_model w w' ∧ training w' = training w.
Proof.
  intros Hdata. unfold Run.evaluate_once.
  pose proof (model_call_same_model data w) as [Hsame Htr].
  destruct (model_call data w) as [out w1]. cbn [snd] in *.
  unfold true_div. destruct (length data =? 0) eqn:Hlen.
  { apply Nat.eqb_eq in Hlen. by destruct data. }
  cbn [mbind result_bind]. eexists _, _. split_and!; [done| |done|done].
  unfold Qle. simpl. lia.
Qed.

Lemma set_grads_same_model g (w : world) : same_model w (set_grads g w).
Proof. by repeat split. Qed.

Lemma optimizer_step_fields (w : world) :
  opt_steps (optimizer_step w) = S (opt_steps w) ∧
  lr (optimizer_step w) = lr w ∧
  stdout (optimizer_step w) = stdout w.
Proof. unfold Run.optimizer_step. by destruct (Adadelta_step _ _ _ _). Qed.

(** One pass of the loop body: the accuracy [q] of a fresh evaluation batch
    is computed in a state [w4] that still has the parameters of [w].  When
    it reaches the threshold the function returns [w4] and the status line,
    without an optimizer step; otherwise the optimizer steps and the loop
    goes on. *)
Lemma train_batches_step (tl el : DataLoader) id t batch rest (w : world) :
  loader_ok tl → loader_ok el → dl_indices el ≠ [] →
  Forall (λ k, k < length (dl_indices tl)) batch →
  ∃ q (w4 : world) (g : G),
    (0 <= q)%Q ∧ same_model w w4 ∧
    (float_ge (Finite q) t = true →
     train_batches tl el id t (batch :: rest) w =
       Ok (print (EarlyTerminated id t (Finite q)) w4)) ∧
    (float_ge (Finite q) t = false →
     train_batches tl el id t (batch :: rest) w =
       train_batches tl el id t rest (optimizer_step (set_grads g w4))).
Proof.
  intros Htl Hel Hne Hbatch. cbn [Run.train_batches].
  destruct (fetch_ok tl batch Htl Hbatch) as (data & target & -> & _).
  cbn [mbind result_bind].
  pose proof (model_call_same_model data (set_grads (zero_grad (grads w)) w))
    as [Hsame2 _].
  destruct (model_call data _) as [out w2]. cbn [snd] in Hsame2.
  destruct (next_iter_ok el w2 Hel Hne) as (eb & g3 & -> & Heb & Hpos).
  cbn [mbind result_bind].
  destruct (fetch_ok el eb Hel Hpos) as (ed & et & -> & Hed).
  cbn [mbind result_bind].
  destruct (evaluate_once_ok ed et (set_rng g3 w2)) as (q & w4 & -> & Hq & Hsame4 & _).
  { intros ->. by destruct eb. }
  cbn [mbind result_bind].
  exists q, w4, (backward (cross_entropy out target) (grads w4)).
  split_and!; [done| |by intros ->|by intros ->].
  eapply same_model_trans; [|exact Hsame4].
  eapply same_model_trans; [|apply set_rng_same_model].
  eapply same_model_trans; [apply set_grads_same_model|exact Hsame2].
Qed.

(** The loop returns; it keeps the learning rate, and it changes the
    parameters only by optimizer steps. *)
Lemma train_batches_ok (tl el : DataLoader) id t batches (w : world) :
  loader_ok tl → loader_ok el → (batches ≠ [] → dl_indices el ≠ []) →
  Forall (Forall (λ k, k < length (dl_indices tl))) batches →
  ∃ w', train_batches tl el id t batches w = Ok w' ∧
        lr w' = lr w ∧ opt_steps w ≤ opt_steps w' ∧
        (opt_steps w' = opt_steps w → params w' = params w).
Proof.
  intros Htl Hel. revert w.
  induction batches as [|batch rest IH]; intros w Hne Hall.
  { exists w. by split_and!. }
  apply Forall_cons in Hall as [Hbatch Hrest].
  destruct (train_batches_step tl el id t batch rest w Htl Hel)
    as (q & w4 & g & _ & (Hp & _ & Hs & Hlr & _) & Hstop & Hgo); [by apply Hne|done|].
  destruct (float_ge (Finite q) t).
  - rewrite Hstop by done. eexists. split; [done|]. cbn. split_and!; [done|lia|done].
  - rewrite Hgo by done.
    destruct (optimizer_step_fields (set_grads g w4)) as (Hs6 & Hlr6 & _).
    destruct (IH (optimizer_step (set_grads g w4))) as (w' & -> & Hlr' & Hs' & _);
      [by intros _; apply Hne|done|].
    exists w'. split; [done|]. cbn in *. split_and!; [congruence|lia|lia].
Qed.


(** With the threshold [0] the check fires on the first batch. *)
Lemma train_batches_zero (tl el : DataLoader) id batch rest (w : world) :
  loader_ok tl → loader_ok el → dl_indices el ≠ [] →
  Forall (λ k, k < length (dl_indices tl)) batch →
  ∃ q w', train_batches tl el id (Finite 0) (batch :: rest) w = Ok w' ∧
          params w' = params w ∧ opt_steps w' = opt_steps w ∧ lr w' = lr w ∧
          stdout w' = stdout w ++ [EarlyTerminated id (Finite 0) (Finite q)].
Proof.
  intros Htl Hel Hne Hbatch.
  destruct (train_batches_step tl el id (Finite 0) batch rest w Htl Hel Hne Hbatch)
    as (q & w4 & g & Hq & (Hp & _ & Hs & Hlr & Hout) & Hstop & _).
  exists q. eexists. split; [apply Hstop|].
  - simpl. by apply Qle_bool_iff.
  - cbn. split_and!; [done|done|done|by rewrite Hout].
Qed.

Lemma train_unfold (tl el : DataLoader) id t (w : world) :
  train tl el id t w =
    train_batches tl el id t (loader_iter tl (rng w)).1
      (set_rng (loader_iter tl (rng w)).2 (set_training true w)).
Proof. unfold Run.train. cbn [rng set_training]. by destruct (loader_iter tl (rng w)). Qed.

Lemma train_ok (tl el : DataLoader) id t (w : world) :
  loader_ok tl → loader_ok el → (dl_indices tl ≠ [] → dl_indices el ≠ []) →
  ∃ w', train tl el id t w = Ok w' ∧
        lr w' = lr w ∧ opt_steps w ≤ opt_steps w' ∧
        (opt_steps w' = opt_steps w → params w' = params w).
Proof.
  intros Htl Hel Hne. rewrite train_unfold.
  destruct (loader_iter_batches tl (rng w) (proj1 Htl)) as (_ & Hall & _).
  edestruct (train_batches_ok tl el id t (loader_iter tl (rng w)).1) as (w' & -> & ?);
    [done|done| | |by exists w'].
  - intros Hb. apply Hne. intros Hnil. apply Hb.
    by apply loader_iter_empty; [apply Htl|].
  - eapply Forall_impl; [exact Hall|]. by intros b [_ ?].
Qed.


Lemma train_zero (tl el : DataLoader) id (w : world) :
  loader_ok tl → loader_ok el → (dl_indices tl ≠ [] → dl_indices el ≠ []) →
  ∃ w', train tl el id (Finite 0) w = Ok w' ∧
        params w' = params w ∧ opt_steps w' = opt_steps w ∧ lr w' = lr w ∧
        (dl_indices tl ≠ [] →
         ∃ q, stdout w' = stdout w ++ [EarlyTerminated id (Finite 0) (Finite q)]).
Proof.
  intros Htl Hel Hne. rewrite train_unfold.
  destruct (loader_iter_batches tl (rng w) (proj1 Htl)) as (_ & Hall & _).
  destruct (loader_iter tl (rng w)).1 as [|batch rest] eqn:Hb.
  - eexists. split; [done|]. split_and!; [done..|].
    intros Htne. by destruct (loader_iter_nonempty tl (rng w) (proj1 Htl) Htne).
  - apply Forall_cons in Hall as [[Hbne Hpos] _].
    assert (dl_indices tl ≠ []) as Htne.
    { intros Hnil. rewrite Hnil in Hpos. destruct batch as [|k ?]; [done|].
      apply Forall_cons in Hpos as [Hk _]. simpl in Hk. lia. }
    edestruct (train_batches_zero tl el id batch rest) as (q & w' & -> & ? & ? & ? & ?);
      [done|done|by apply Hne|done|].
    exists w'. split_and!; [done..|]. intros _. by exists q.
Qed.

Lemma scheduler_step_fields gamma (w : world) :
  lr (scheduler_step gamma w) = (lr w * gamma)%Q ∧
  params (scheduler_step gamma w) = params w ∧
  opt_steps (scheduler_step gamma w) = opt_steps w ∧
  stdout (scheduler_step gamma w) = stdout w.
Proof. done. Qed.

Lemma Qpower_succ_nat (a : Q) (n : nat) : (a ^ Z.of_nat (S n) == a ^ Z.of_nat n * a)%Q.
Proof.
  rewrite Nat2Z.inj_succ. unfold Z.succ.
  rewrite Qpower_plus' by lia. by rewrite Qpower_1_r.
Qed.

(** The epochs: the schedule steps once after every call of [train]. *)
Lemma train_epochs_lr (tl el : DataLoader) it t gamma epoch_range (w : world) :
  loader_ok tl → loader_ok el → (dl_indices tl ≠ [] → dl_indices el ≠ []) →
  ∃ w', train_epochs tl el it t gamma epoch_range w = Ok w' ∧
        (lr w' == lr w * gamma ^ Z.of_nat (length epoch_range))%Q.
Proof.
  intros Htl Hel Hne. revert w.
  induction epoch_range as [|epoch epoch_range IH]; intros w.
  - exists w. split; [done|]. simpl. by rewrite Qmult_1_r.
  - cbn [Run.train_epochs].
    destruct (train_ok tl el it t w Htl Hel Hne) as (w1 & -> & Hlr & _).
    cbn [mbind result_bind].
    destruct (IH (scheduler_step gamma w1)) as (w' & -> & Hlr').
    exists w'. split; [done|]. rewrite Hlr'. cbn [length lr scheduler_step set_lr].
    rewrite Hlr, Qpower_succ_nat. ring.
Qed.


Lemma train_epochs_zero (tl el : DataLoader) it gamma epoch_range (w : world) :
  loader_ok tl → loader_ok el → (dl_indices tl ≠ [] → dl_indices el ≠ []) →
  ∃ w', train_epochs tl el it (Finite 0) gamma epoch_range w = Ok w' ∧
        params w' = params w ∧ opt_steps w' = opt_steps w ∧
        (dl_indices tl ≠ [] →
         ∃ lines, stdout w' = stdout w ++ lines ∧
                  length lines = length epoch_range ∧
                  Forall (λ s, ∃ q, s = EarlyTerminated it (Finite 0) (Finite q)) lines).
Proof.
  intros Htl Hel Hne. revert w.
  induction epoch_range as [|epoch epoch_range IH]; intros w.
  - exists w. split_and!; [done..|]. intros _. exists []. by rewrite app_nil_r.
  - cbn [Run.train_epochs].
    destruct (train_zero tl el it w Htl Hel Hne) as (w1 & -> & Hp & Hs & _ & Hout).
    cbn [mbind result_bind].
    destruct (IH (scheduler_step gamma w1)) as (w' & -> & Hp' & Hs' & Hout').
    exists w'. split; [done|]. cbn in *. split_and!; [congruence|congruence|].
    intros Htne. destruct (Hout Htne) as [q Hq].
    destruct (Hout' Htne) as (lines & Hlines & Hlen & Hall).
    exists (EarlyTerminated it (Finite 0) (Finite q) :: lines).
    split_and!.
    + rewrite Hlines, Hq. by rewrite <-app_assoc.
    + simpl. by rewrite Hlen.
    + constructor; [by exists q | done].
Qed.

(** *** What the evaluations and the loop leave unchanged *)

Lemma evaluate_once_same_model data target (w w' : world) acc :
  evaluate_once data target w = Ok (acc, w') → same_model w w'.
Proof.
  unfold Run.evaluate_once.
  pose proof (model_call_same_model data w) as [Hsame _].
  destruct (model_call data w) as [out w1]. cbn [snd] in Hsame.
  by intros (a & _ & [= _ <-])%bind_Ok.
Qed.

Lemma next_iter_same_model (dl : DataLoader) (w w' : world) b :
  next_iter dl w = Ok (b, w') → same_model w w'.
Proof.
  unfold Run.next_iter. destruct (loader_iter dl (rng w)) as [[|b' batches] g]; [done|].
  intros [= _ <-]. apply set_rng_same_model.
Qed.

Lemma train_batches_params (tl el : DataLoader) id t batches (w w' : world) :
  train_batches tl el id t batches w = Ok w' →
  opt_steps w ≤ opt_steps w' ∧ (opt_steps w' = opt_steps w → params w' = params w).
Proof.
  revert w. induction batches as [|batch rest IH]; intros w.
  { by intros [= <-]. }
  cbn [Run.train_batches].
  intros ([data target] & _ & Hrun)%bind_Ok.
  pose proof (model_call_same_model data (set_grads (zero_grad (grads w)) w))
    as [Hsame2 _].
  destruct (model_call data _) as [out w2]. cbn [snd] in Hsame2.
  apply bind_Ok in Hrun as ([eb w3] & Hsame3%next_iter_same_model & Hrun).
  apply bind_Ok in Hrun as ([ed et] & _ & Hrun).
  apply bind_Ok in Hrun as ([acc w4] & Hsame4%evaluate_once_same_model & Hrun).
  assert (same_model w w4) as (Hp & _ & Hs & _).
  { eapply same_model_trans; [|exact Hsame4].
    eapply same_model_trans; [|exact Hsame3].
    eapply same_model_trans; [apply set_grads_same_model|exact Hsame2]. }
  destruct (float_ge acc t).
  - injection Hrun as <-. cbn. split; [lia|done].
  - apply IH in Hrun as [Hle _].
    destruct (optimizer_step_fields
                (set_grads (backward (cross_entropy out target) (grads w4)) w4))
      as (Hs6 & _). cbn in *. split; lia.
Qed.

Lemma train_params (tl el : DataLoader) id t (w w' : world) :
  train tl el id t w = Ok w' →
  opt_steps w ≤ opt_steps w' ∧ (opt_steps w' = opt_steps w → params w' = params w).
Proof. rewrite train_unfold. by intros ?%train_batches_params. Qed.

Lemma evaluate_batches_params (dl : DataLoader) batches c l (w w' : world) c' l' :
  evaluate_batches dl batches c l w = Ok (c', l', w') → same_model w w'.
Proof.
  revert c l w. induction batches as [|batch rest IH]; intros c l w.
  { intros [= _ _ <-]. apply same_model_refl. }
  cbn [Run.evaluate_batches].
  intros ([data target] & _ & Hrun)%bind_Ok.
  pose proof (model_call_same_model data w) as [Hsame _].
  destruct (model_call data w) as [out w1]. cbn [snd] in Hsame.
  apply IH in Hrun. by eapply same_model_trans.
Qed.

Lemma evaluate_params (dl : DataLoader) (w w' : world) acc mean_loss :
  evaluate dl w = Ok (acc, mean_loss, w') → params w' = params w.
Proof.
  unfold Run.evaluate. cbn [rng set_training].
  destruct (loader_iter dl (rng w)) as [batches g].
  intros ([[c l] w1] & Hsame%evaluate_batches_params & Hrun)%bind_Ok.
  apply bind_Ok in Hrun as (a & _ & Hrun).
  destruct (_ =? 0); [done|]. injection Hrun as _ _ <-.
  by destruct Hsame as [-> _].
Qed.

Lemma evaluate_batches_ok (dl : DataLoader) batches c l (w : world) :
  loader_ok dl →
  Forall (Forall (λ k, k < length (dl_indices dl))) batches →
  is_Ok (evaluate_batches dl batches c l w).
Proof.
  intros Hdl. revert c l w.
  induction batches as [|batch rest IH]; intros c l w Hall; [by eexists|].
  apply Forall_cons in Hall as [Hbatch Hrest].
  cbn [Run.evaluate_batches].
  destruct (fetch_ok dl batch Hdl Hbatch) as (data & target & -> & _).
  cbn [mbind result_bind].
  destruct (model_call data w) as [out w1]. by apply IH.
Qed.

Lemma evaluate_ok (dl : DataLoader) (w : world) :
  loader_ok dl → dl_indices dl ≠ [] → is_Ok (evaluate dl w).
Proof.
  intros Hdl Hne. unfold Run.evaluate. cbn [rng set_training].
  destruct (loader_iter_batches dl (rng w) (proj1 Hdl)) as (_ & Hall & _).
  destruct (loader_iter dl (rng w)) as [batches g]. cbn [fst] in Hall.
  edestruct (evaluate_batches_ok dl batches 0 0%Q (set_rng g (set_training false w)))
    as [[[c l] w1] ->]; [done| |].
  { eapply Forall_impl; [exact Hall|]. by intros b [_ ?]. }
  cbn [mbind result_bind]. unfold true_div.
  destruct (length (dl_indices dl) =? 0) eqn:Hlen.
  { apply Nat.eqb_eq in Hlen. by destruct (dl_indices dl). }
  cbn [mbind result_bind]. by eexists.
Qed.

(** *** The claims about the training loop *)


(** C6: [train] is called for each of the [epochs] epochs and the schedule
    steps once after each call, for every threshold and whether or not a
    call returned early; afterwards the learning rate is the initial one
    times [gamma ^ epochs].  With the threshold [0], where every call
    returns early, every one of the [epochs] calls still takes place. *)
Theorem train_epochs_learning_rate (tl el : DataLoader) it t gamma epochs (w : world) :
  loader_ok tl → loader_ok el → (dl_indices tl ≠ [] → dl_indices el ≠ []) →
  (∃ w', train_epochs tl el it t gamma (seq 1 epochs) w = Ok w' ∧
         (lr w' == lr w * gamma ^ Z.of_nat epochs)%Q) ∧
  (dl_indices tl ≠ [] →
   ∃ w' lines, train_epochs tl el it (Finite 0) gamma (seq 1 epochs) w = Ok w' ∧
               (lr w' == lr w * gamma ^ Z.of_nat epochs)%Q ∧
               stdout w' = stdout w ++ lines ∧ length lines = epochs ∧
               Forall (λ s, ∃ q, s = EarlyTerminated it (Finite 0) (Finite q)) lines).
Proof.
  intros Htl Hel Hne. split.
  - destruct (train_epochs_lr tl el it t gamma (seq 1 epochs) w Htl Hel Hne)
      as (w' & ? & Hlr).
    rewrite length_seq in Hlr. by exists w'.
  - intros Htne.
    destruct (train_epochs_lr tl el it (Finite 0) gamma (seq 1 epochs) w Htl Hel Hne)
      as (w' & Hrun & Hlr).
    destruct (train_epochs_zero tl el it gamma (seq 1 epochs) w Htl Hel Hne)
      as (w'' & Hrun' & _ & _ & Hout).
    rewrite Hrun in Hrun'. injection Hrun' as <-.
    destruct (Hout Htne) as (lines & ? & Hlen & ?).
    rewrite length_seq in Hlr, Hlen. by exists w', lines.
Qed.

(** C10: the accuracy of one batch and the evaluation of a whole loader
    return a model with the parameters they were given, and both return for
    data that is not empty; a call of [train] that took no optimizer step
    returns the parameters it was given. *)
Theorem evaluation_keeps_parameters :
  (∀ data target (w w' : world) acc,
     evaluate_once data target w = Ok (acc, w') → params w' = params w) ∧
  (∀ data target (w : world), data ≠ [] → is_Ok (evaluate_once data target w)) ∧
  (∀ (dl : DataLoader) (w w' : world) acc mean_loss,
     evaluate dl w = Ok (acc, mean_loss, w') → params w' = params w) ∧
  (∀ (dl : DataLoader) (w : world),
     loader_ok dl → dl_indices dl ≠ [] → is_Ok (evaluate dl w)) ∧
  (∀ (tl el : DataLoader) id t (w w' : world),
     train tl el id t w = Ok w' →
     opt_steps w ≤ opt_steps w' ∧ (opt_steps w' = opt_steps w → params w' = params w)).
Proof.
  split_and!.
  - intros data target w w' acc Hrun.
    by destruct (evaluate_once_same_model _ _ _ _ _ Hrun) as [-> _].
  - intros data target w Hdata.
    destruct (evaluate_once_ok data target w Hdata) as (q & w' & -> & _). by eexists.
  - intros dl w w' acc mean_loss. apply evaluate_params.
  - intros dl w. apply evaluate_ok.
  - intros tl el id t w w'. apply train_params.
Qed.

(** *** The data the loaders draw *)

Local Abbreviation random_split := (random_split (R:=R) randperm).
Local Abbreviation make_loaders := (make_loaders (T:=T) (LC:=LC) randperm).
Local Abbreviation landscape_batch :=
  (landscape_batch (P:=P) (B:=B) (G:=G) (O:=O) randperm).

(** The loaders of [main]: the training and the evaluation loader range
    over all rows of the dataset, the landscape loader over the
    [data_samples] rows of the second part of the split. *)
Lemma make_loaders_Ok (args : Args (LC:=LC)) (ds : CSVDataset (T:=T)) g tl el ll g' :
  make_loaders args ds g = Ok (tl, el, ll, g') →
  let n := CSVDataset_len ds in
  dl_indices tl = seq 0 n ∧ dl_batch_size tl = batch_size args ∧
  dl_indices el = seq 0 n ∧
  dl_batch_size ll = data_samples args ∧
  0 < batch_size args ∧ 0 < data_samples args ∧
  length (dl_indices ll) = data_samples args ∧
  dl_indices ll ⊆ seq 0 n.
Proof.
  unfold Run.make_loaders, Run.random_split, DataLoader_new.
  pose proof (randperm_perm g (CSVDataset_len ds)) as Hperm.
  destruct (CSVDataset_len ds <? data_samples args) eqn:Hk; [done|].
  apply Nat.ltb_ge in Hk.
  destruct (randperm g (CSVDataset_len ds)) as [perm g1]. cbn [fst] in Hperm.
  cbn [mbind result_bind].
  destruct (batch_size args =? 0) eqn:Hbs; [done|].
  destruct (data_samples args =? 0) eqn:Hds; [done|].
  cbn [mbind result_bind]. intros [= <- <- <- <-]. cbn.
  apply Nat.eqb_neq in Hbs, Hds.
  pose proof (Permutation_length Hperm) as Hlen. rewrite length_seq in Hlen.
  split_and!; [done|done|done|done|lia|lia| |].
  - rewrite length_drop. lia.
  - intros row Hrow. rewrite <-Hperm. by eapply subseteq_drop.
Qed.

Lemma batch_rows_all (dl : DataLoader) n (b : list nat) row :
  dl_indices dl = seq 0 n → row ∈ b → row < n → row ∈ batch_rows dl b.
Proof.
  intros Hall Hb Hn. unfold batch_rows. apply list_elem_of_omap.
  exists row. split; [done|]. rewrite Hall. by apply lookup_seq_lt.
Qed.

Lemma batch_rows_subset (dl : DataLoader) (b : list nat) row :
  row ∈ batch_rows dl b → row ∈ dl_indices dl.
Proof.
  unfold batch_rows. intros (k & _ & Hk)%list_elem_of_omap.
  by eapply list_elem_of_lookup_2.
Qed.

(** C3, as the code has it: the landscape batch is not empty, and each of
    its rows is a row the training loader draws in every pass over its
    data, in the first batch already when one batch holds the dataset. *)
Theorem landscape_rows_are_training_rows
    (args : Args (LC:=LC)) (ds : CSVDataset (T:=T)) g tl el ll g' :
  make_loaders args ds g = Ok (tl, el, ll, g') →
  ∀ (w : world) (gt : R),
    ∃ lb w', landscape_batch ll w = Ok (lb, w') ∧
             batch_rows ll lb ≠ [] ∧
             ∀ row, row ∈ batch_rows ll lb →
               row ∈ concat (map (batch_rows tl) (loader_iter tl gt).1) ∧
               (CSVDataset_len ds ≤ batch_size args →
                ∃ b rest, (loader_iter tl gt).1 = b :: rest ∧ row ∈ batch_rows tl b).
Proof.
  intros Hmk w gt.
  destruct (make_loaders_Ok _ _ _ _ _ _ _ Hmk)
    as (Htl & Hbs & _ & Hlbs & Hbpos & Hkpos & Hllen & Hsub).
  unfold Run.landscape_batch, Run.next_iter.
  assert (0 < dl_batch_size ll) as Hlpos by lia.
  pose proof (loader_iter_batches ll (rng w) Hlpos) as (_ & Hall & _).
  assert (dl_indices ll ≠ []) as Hlne by (intros Hnil; rewrite Hnil in Hllen; simpl in *; lia).
  pose proof (loader_iter_nonempty ll (rng w) Hlpos Hlne) as Hne.
  destruct (loader_iter ll (rng w)) as [[|lb batches] gl]; [done|].
  apply Forall_cons in Hall as [[Hlb Hpos] _].
  exists lb, (set_rng gl w). split; [done|]. split.
  { destruct lb as [|k lb]; [done|]. apply Forall_cons in Hpos as [Hk _].
    destruct (lookup_lt_is_Some_2 _ _ Hk) as [row Hrow].
    unfold batch_rows. cbn [omap list_omap]. by rewrite Hrow. }
  intros row Hrow%batch_rows_subset%Hsub. apply elem_of_seq in Hrow.
  assert (0 < dl_batch_size tl) as Htpos by lia.
  pose proof (loader_iter_batches tl gt Htpos) as (Hperm & _ & _).
  rewrite Htl, length_seq in Hperm.
  assert (row ∈ concat (loader_iter tl gt).1) as Hin
    by (rewrite Hperm; apply elem_of_seq; lia).
  split.
  - apply list_elem_of_In, in_concat in Hin as (b & Hb & Hrb).
    apply list_elem_of_In, in_concat. exists (batch_rows tl b). split.
    + apply in_map_iff. by exists b.
    + apply list_elem_of_In. eapply batch_rows_all; [done| |lia].
      by apply list_elem_of_In.
  - intros Hsmall. unfold Run.loader_iter in *.
    pose proof (randperm_perm gt (length (dl_indices tl))) as Hp.
    destruct (randperm gt _) as [perm gt']. cbn [fst] in *.
    rewrite chunks_concat in Hin by done.
    pose proof (Permutation_length Hp) as Hlen.
    rewrite length_seq, Htl, length_seq in Hlen.
    destruct perm as [|k perm]; [by apply elem_of_nil in Hin|].
    eexists _, _. split; [done|].
    rewrite take_ge by (rewrite Hbs; lia).
    eapply batch_rows_all; [done|done|lia].
Qed.

(** *** Further properties of the harness *)

Lemma count_correct_le (pred target : list Z) : count_correct pred target ≤ length target.
Proof.
  unfold count_correct. etrans; [apply length_filter|].
  rewrite length_zip. lia.
Qed.

Lemma fetch_lengths (dl : DataLoader) (batch : list nat) data target :
  fetch dl batch = Ok (data, target) →
  length data = length batch ∧ length target = length batch.
Proof.
  unfold Run.fetch. intros (samples & Hs%traverse_length & [= <- <-])%bind_Ok.
  by rewrite !length_map.
Qed.

Lemma evaluate_once_range data target (w : world) :
  length target = length data → data ≠ [] →
  ∃ q w', evaluate_once data target w = Ok (Finite q, w') ∧
          (0 <= q)%Q ∧ (q <= 1)%Q ∧ same_model w w' ∧ training w' = training w.
Proof.
  intros Hlen Hdata. unfold Run.evaluate_once.
  pose proof (model_call_same_model data w) as [Hsame Htr].
  destruct (model_call data w) as [out w1]. cbn [snd] in *.
  unfold true_div. destruct (length data =? 0) eqn:Hn.
  { apply Nat.eqb_eq in Hn. by destruct data. }
  apply Nat.eqb_neq in Hn.
  cbn [mbind result_bind]. eexists _, _. split_and!; [done| | |done|done].
  - unfold Qle. simpl. lia.
  - pose proof (count_correct_le (predictions out) target) as Hle.
    unfold Qle. cbn [Qnum Qden Nat.add]. rewrite Hlen in Hle. lia.
Qed.

(** X6: the accuracy of a batch with as many targets as inputs is a
    fraction between 0 and 1, and the accuracy of an empty batch is a
    division by zero. *)
Theorem evaluate_once_accuracy :
  (∀ target (w : world), evaluate_once [] target w = Raise ZeroDivisionError) ∧
  (∀ data target (w : world),
     length target = length data → data ≠ [] →
     ∃ q w', evaluate_once data target w = Ok (Finite q, w') ∧
             (0 <= q)%Q ∧ (q <= 1)%Q).
Proof.
  split.
  - intros target w. unfold Run.evaluate_once.
    by destruct (model_call [] w) as [out w1].
  - intros data target w Hlen Hdata.
    destruct (evaluate_once_range data target w Hlen Hdata) as (q & w' & ? & ? & ? & _).
    by exists q, w'.
Qed.

Lemma optimizer_step_training (w : world) :
  training (optimizer_step w) = training w.
Proof. unfold Run.optimizer_step. by destruct (Adadelta_step _ _ _ _). Qed.

(** One pass of the loop body, with the range of the accuracy. *)
Lemma train_batches_pass (tl el : DataLoader) id t batch rest (w : world) :
  loader_ok tl → loader_ok el → dl_indices el ≠ [] →
  Forall (λ k, k < length (dl_indices tl)) batch →
  ∃ q (w4 : world) (g : G),
    (0 <= q)%Q ∧ (q <= 1)%Q ∧ same_model w w4 ∧ training w4 = training w ∧
    (float_ge (Finite q) t = true →
     train_batches tl el id t (batch :: rest) w =
       Ok (print (EarlyTerminated id t (Finite q)) w4)) ∧
    (float_ge (Finite q) t = false →
     train_batches tl el id t (batch :: rest) w =
       train_batches tl el id t rest (optimizer_step (set_grads g w4))).
Proof.
  intros Htl Hel Hne Hbatch. cbn [Run.train_batches].
  destruct (fetch_ok tl batch Htl Hbatch) as (data & target & -> & _).
  cbn [mbind result_bind].
  pose proof (model_call_same_model data (set_grads (zero_grad (grads w)) w))
    as [Hsame2 Htr2].
  destruct (model_call data _) as [out w2]. cbn [snd] in Hsame2, Htr2.
  destruct (next_iter_ok el w2 Hel Hne) as (eb & g3 & -> & Heb & Hpos).
  cbn [mbind result_bind].
  destruct (fetch_ok el eb Hel Hpos) as (ed & et & Hfetch & Hed).
  destruct (fetch_lengths _ _ _ _ Hfetch) as [_ Het]. rewrite Hfetch.
  cbn [mbind result_bind].
  destruct (evaluate_once_range ed et (set_rng g3 w2))
    as (q & w4 & -> & Hq0 & Hq1 & Hsame4 & Htr4); [congruence| |].
  { intros ->. by destruct eb. }
  cbn [mbind result_bind].
  exists q, w4, (backward (cross_entropy out target) (grads w4)).
  split_and!; [done|done| | |by intros ->|by intros ->].
  - eapply same_model_trans; [|exact Hsame4].
    eapply same_model_trans; [|apply set_rng_same_model].
    eapply same_model_trans; [apply set_grads_same_model|exact Hsame2].
  - rewrite Htr4. cbn. by rewrite Htr2.
Qed.

Lemma train_batches_outcome (tl el : DataLoader) id t batches (w : world) :
  loader_ok tl → loader_ok el → (batches ≠ [] → dl_indices el ≠ []) →
  Forall (Forall (λ k, k < length (dl_indices tl))) batches →
  ∃ w', train_batches tl el id t batches w = Ok w' ∧
        training w' = training w ∧ lr w' = lr w ∧
        ((stdout w' = stdout w ∧ opt_steps w' = opt_steps w + length batches) ∨
         (∃ q, (0 <= q)%Q ∧ (q <= 1)%Q ∧ float_ge (Finite q) t = true ∧
               stdout w' = stdout w ++ [EarlyTerminated id t (Finite q)] ∧
               opt_steps w' < opt_steps w + length batches)).
Proof.
  intros Htl Hel. revert w.
  induction batches as [|batch rest IH]; intros w Hne Hall.
  { exists w. split_and!; [done..|]. left. split; [done | simpl; lia]. }
  apply Forall_cons in Hall as [Hbatch Hrest].
  destruct (train_batches_pass tl el id t batch rest w Htl Hel)
    as (q & w4 & g & Hq0 & Hq1 & (_ & _ & Hs & Hlr & Hout) & Htr & Hstop & Hgo);
    [by apply Hne|done|].
  destruct (float_ge (Finite q) t) eqn:Hge.
  - rewrite Hstop by done. eexists. split; [done|]. cbn. split_and!; [done|done|].
    right. exists q. split_and!; [done|done|done|by rewrite Hout|simpl; lia].
  - rewrite Hgo by done.
    destruct (optimizer_step_fields (set_grads g w4)) as (Hs6 & Hlr6 & Hout6).
    pose proof (optimizer_step_training (set_grads g w4)) as Htr6.
    destruct (IH (optimizer_step (set_grads g w4)))
      as (w' & -> & Htr' & Hlr' & Hcases); [by intros _; apply Hne|done|].
    exists w'. split; [done|]. cbn in *. split_and!; [congruence|congruence|].
    destruct Hcases as [[Hout' Hs']|(q' & ? & ? & ? & Hout' & Hs')].
    + left. split; [congruence | lia].
    + right. exists q'. split_and!; [done|done|done|congruence|lia].
Qed.

Lemma train_outcome_aux (tl el : DataLoader) id t (w : world) :
  loader_ok tl → loader_ok el → (dl_indices tl ≠ [] → dl_indices el ≠ []) →
  let n := num_batches (length (dl_indices tl)) (dl_batch_size tl) in
  ∃ w', train tl el id t w = Ok w' ∧
        training w' = true ∧ lr w' = lr w ∧
        ((stdout w' = stdout w ∧ opt_steps w' = opt_steps w + n) ∨
         (∃ q, (0 <= q)%Q ∧ (q <= 1)%Q ∧ float_ge (Finite q) t = true ∧
               stdout w' = stdout w ++ [EarlyTerminated id t (Finite q)] ∧
               opt_steps w' < opt_steps w + n)).
Proof.
  intros Htl Hel Hne n. rewrite train_unfold.
  destruct (loader_iter_batches tl (rng w) (proj1 Htl)) as (_ & Hall & Hlen).
  edestruct (train_batches_outcome tl el id t (loader_iter tl (rng w)).1)
    as (w' & -> & Htr & Hlr & Hcases); [done|done| | |].
  - intros Hb. apply Hne. intros Hnil. apply Hb.
    by apply loader_iter_empty; [apply Htl|].
  - eapply Forall_impl; [exact Hall|]. by intros b [_ ?].
  - exists w'. split; [done|]. rewrite Hlen in Hcases. by split_and!.
Qed.

(** X7: a call of [train] on loaders that can be iterated returns with the
    model in training mode and the learning rate untouched, and it ends in
    one of two ways: it took one optimizer step per batch and printed
    nothing, or it took fewer steps and printed exactly one status line,
    whose accuracy is at least the threshold. *)
Theorem train_outcome (tl el : DataLoader) id t (w : world) :
  loader_ok tl → loader_ok el → (dl_indices tl ≠ [] → dl_indices el ≠ []) →
  let n := num_batches (length (dl_indices tl)) (dl_batch_size tl) in
  ∃ w', train tl el id t w = Ok w' ∧
        training w' = true ∧ lr w' = lr w ∧
        ((stdout w' = stdout w ∧ opt_steps w' = opt_steps w + n) ∨
         (∃ q, (0 <= q)%Q ∧ (q <= 1)%Q ∧ float_ge (Finite q) t = true ∧
               stdout w' = stdout w ++ [EarlyTerminated id t (Finite q)] ∧
               opt_steps w' < opt_steps w + n)).
Proof. apply train_outcome_aux. Qed.

Lemma float_ge_unreachable (t : pyfloat) :
  t = NaN ∨ (∃ c, t = Finite c ∧ (1 < c)%Q) →
  ∀ q, (q <= 1)%Q → float_ge (Finite q) t = false.
Proof.
  intros [->|(c & -> & Hc)] q Hq; [done|]. simpl.
  destruct (Qle_bool c q) eqn:Hcq; [|done].
  apply Qle_bool_iff in Hcq.
  destruct (Qlt_irrefl c). eapply Qle_lt_trans; [|exact Hc]. by eapply Qle_trans.
Qed.

Lemma float_ge_always (t : pyfloat) :
  t = NegInf ∨ (∃ c, t = Finite c ∧ (c <= 0)%Q) →
  ∀ q, (0 <= q)%Q → float_ge (Finite q) t = true.
Proof.
  intros [->|(c & -> & Hc)] q Hq; [done|]. simpl.
  apply Qle_bool_iff. by eapply Qle_trans.
Qed.

Lemma train_epochs_unreachable (tl el : DataLoader) it t gamma epoch_range (w : world) :
  loader_ok tl → loader_ok el → (dl_indices tl ≠ [] → dl_indices el ≠ []) →
  (∀ q, (q <= 1)%Q → float_ge (Finite q) t = false) →
  ∃ w', train_epochs tl el it t gamma epoch_range w = Ok w' ∧
        opt_steps w' =
          opt_steps w + length epoch_range *
                        num_batches (length (dl_indices tl)) (dl_batch_size tl) ∧
        stdout w' = stdout w.
Proof.
  intros Htl Hel Hne Ht. revert w.
  induction epoch_range as [|epoch epoch_range IH]; intros w.
  - exists w. split_and!; [done|simpl; lia|done].
  - cbn [Run.train_epochs].
    destruct (train_outcome_aux tl el it t w Htl Hel Hne)
      as (w1 & -> & _ & _ & [[Hout Hs]|(q & _ & Hq & Hge & _)]).
    2:{ rewrite Ht in Hge by done. done. }
    cbn [mbind result_bind].
    destruct (IH (scheduler_step gamma w1)) as (w' & -> & Hs' & Hout').
    exists w'. split; [done|]. cbn in *. split; [lia|congruence].
Qed.

(** X8: a threshold no accuracy can reach, [nan] or a number above 1 (a
    percentage, say), never stops the training: every batch of every epoch
    gets its optimizer step and no status line is printed. *)
Theorem train_threshold_out_of_reach (tl el : DataLoader) it t gamma epochs (w : world) :
  loader_ok tl → loader_ok el → (dl_indices tl ≠ [] → dl_indices el ≠ []) →
  t = NaN ∨ (∃ c, t = Finite c ∧ (1 < c)%Q) →
  ∃ w', train_epochs tl el it t gamma (seq 1 epochs) w = Ok w' ∧
        opt_steps w' =
          opt_steps w + epochs *
                        num_batches (length (dl_indices tl)) (dl_batch_size tl) ∧
        stdout w' = stdout w.
Proof.
  intros Htl Hel Hne Ht.
  destruct (train_epochs_unreachable tl el it t gamma (seq 1 epochs) w Htl Hel Hne)
    as (w' & ? & Hs & ?); [by apply float_ge_unreachable|].
  rewrite length_seq in Hs. by exists w'.
Qed.

Lemma train_low (tl el : DataLoader) id t (w : world) :
  loader_ok tl → loader_ok el → (dl_indices tl ≠ [] → dl_indices el ≠ []) →
  (∀ q, (0 <= q)%Q → float_ge (Finite q) t = true) →
  ∃ w', train tl el id t w = Ok w' ∧
        params w' = params w ∧ opt_steps w' = opt_steps w ∧
        (dl_indices tl ≠ [] →
         ∃ q, stdout w' = stdout w ++ [EarlyTerminated id t (Finite q)]).
Proof.
  intros Htl Hel Hne Ht. rewrite train_unfold.
  destruct (loader_iter_batches tl (rng w) (proj1 Htl)) as (_ & Hall & _).
  destruct (loader_iter tl (rng w)).1 as [|batch rest] eqn:Hb.
  - eexists. split; [done|]. split_and!; [done..|].
    intros Htne. by destruct (loader_iter_nonempty tl (rng w) (proj1 Htl) Htne).
  - apply Forall_cons in Hall as [[Hbne Hpos] _].
    assert (dl_indices tl ≠ []) as Htne.
    { intros Hnil. rewrite Hnil in Hpos. destruct batch as [|k ?]; [done|].
      apply Forall_cons in Hpos as [Hk _]. simpl in Hk. lia. }
    edestruct (train_batches_pass tl el id t batch rest)
      as (q & w4 & g & Hq & _ & (Hp & _ & Hs & _ & Hout) & _ & Hstop & _);
      [done|done|by apply Hne|done|].
    rewrite Hstop by by apply Ht. eexists. split; [done|]. cbn.
    split_and!; [done|done|]. intros _. exists q. by rewrite Hout.
Qed.

Lemma train_epochs_low (tl el : DataLoader) it t gamma epoch_range (w : world) :
  loader_ok tl → loader_ok el → (dl_indices tl ≠ [] → dl_indices el ≠ []) →
  (∀ q, (0 <= q)%Q → float_ge (Finite q) t = true) →
  ∃ w', train_epochs tl el it t gamma epoch_range w = Ok w' ∧
        params w' = params w ∧ opt_steps w' = opt_steps w.
Proof.
  intros Htl Hel Hne Ht. revert w.
  induction epoch_range as [|epoch epoch_range IH]; intros w.
  - by exists w.
  - cbn [Run.train_epochs].
    destruct (train_low tl el it t w Htl Hel Hne Ht) as (w1 & -> & Hp & Hs & _).
    cbn [mbind result_bind].
    destruct (IH (scheduler_step gamma w1)) as (w' & -> & Hp' & Hs').
    exists w'. split; [done|]. cbn in *. split; congruence.
Qed.

(** X9: a threshold every accuracy reaches, [-inf] or a number that is not
    positive, stops every call of [train] at its first batch: after all
    epochs the parameters are those of the start and no optimizer step was
    taken. *)
Theorem train_threshold_always_reached (tl el : DataLoader) it t gamma epochs (w : world) :
  loader_ok tl → loader_ok el → (dl_indices tl ≠ [] → dl_indices el ≠ []) →
  t = NegInf ∨ (∃ c, t = Finite c ∧ (c <= 0)%Q) →
  ∃ w', train_epochs tl el it t gamma (seq 1 epochs) w = Ok w' ∧
        params w' = params w ∧ opt_steps w' = opt_steps w.
Proof.
  intros Htl Hel Hne Ht.
  by apply train_epochs_low; [| | |apply float_ge_always].
Qed.

Lemma next_iter_training (dl : DataLoader) (w w' : world) b :
  next_iter dl w = Ok (b, w') → training w' = training w.
Proof.
  unfold Run.next_iter. destruct (loader_iter dl (rng w)) as [[|b' batches] g]; [done|].
  by intros [= _ <-].
Qed.

Lemma evaluate_once_training data target (w w' : world) acc :
  evaluate_once data target w = Ok (acc, w') → training w' = training w.
Proof.
  unfold Run.evaluate_once.
  pose proof (model_call_same_model data w) as [_ Htr].
  destruct (model_call data w) as [out w1]. cbn [snd] in Htr.
  by intros (a & _ & [= _ <-])%bind_Ok.
Qed.

Lemma train_batches_training (tl el : DataLoader) id t batches (w w' : world) :
  train_batches tl el id t batches w = Ok w' → training w' = training w.
Proof.
  revert w. induction batches as [|batch rest IH]; intros w.
  { by intros [= <-]. }
  cbn [Run.train_batches].
  intros ([data target] & _ & Hrun)%bind_Ok.
  pose proof (model_call_same_model data (set_grads (zero_grad (grads w)) w))
    as [_ Htr2].
  destruct (model_call data _) as [out w2]. cbn [snd] in Htr2.
  apply bind_Ok in Hrun as ([eb w3] & Htr3%next_iter_training & Hrun).
  apply bind_Ok in Hrun as ([ed et] & _ & Hrun).
  apply bind_Ok in Hrun as ([acc w4] & Htr4%evaluate_once_training & Hrun).
  assert (training w4 = training w) as Htr by (cbn in *; congruence).
  destruct (float_ge acc t).
  - by injection Hrun as <-.
  - apply IH in Hrun. rewrite Hrun, optimizer_step_training. done.
Qed.

Lemma evaluate_batches_training (dl : DataLoader) batches c l (w w' : world) c' l' :
  evaluate_batches dl batches c l w = Ok (c', l', w') → training w' = training w.
Proof.
  revert c l w. induction batches as [|batch rest IH]; intros c l w.
  { by intros [= _ _ <-]. }
  cbn [Run.evaluate_batches].
  intros ([data target] & _ & Hrun)%bind_Ok.
  pose proof (model_call_same_model data w) as [_ Htr].
  destruct (model_call data w) as [out w1]. cbn [snd] in Htr.
  apply IH in Hrun. congruence.
Qed.

(** X10: the mode of the model.  [train] returns with the model in
    training mode and [evaluate] with the model in evaluation mode, whatever
    the mode was; [evaluate_once] keeps the mode it finds, so inside [train]
    the accuracy is computed in training mode. *)
Theorem model_mode_after :
  (∀ (tl el : DataLoader) id t (w w' : world),
     train tl el id t w = Ok w' → training w' = true) ∧
  (∀ (dl : DataLoader) (w w' : world) acc mean_loss,
     evaluate dl w = Ok (acc, mean_loss, w') → training w' = false) ∧
  (∀ data target (w w' : world) acc,
     evaluate_once data target w = Ok (acc, w') → training w' = training w).
Proof.
  split_and!.
  - intros tl el id t w w'. rewrite train_unfold.
    by intros ->%train_batches_training.
  - intros dl w w' acc mean_loss. unfold Run.evaluate. cbn [rng set_training].
    destruct (loader_iter dl (rng w)) as [batches g].
    intros ([[c l] w1] & Htr%evaluate_batches_training & Hrun)%bind_Ok.
    apply bind_Ok in Hrun as (a & _ & Hrun).
    destruct (_ =? 0); [done|]. by injection Hrun as _ _ <-.
  - intros data target w w' acc. apply evaluate_once_training.
Qed.

Lemma evaluate_batches_count (dl : DataLoader) batches c l (w w' : world) c' l' :
  evaluate_batches dl batches c l w = Ok (c', l', w') →
  c ≤ c' ≤ c + length (concat batches).
Proof.
  revert c l w. induction batches as [|batch rest IH]; intros c l w.
  { intros [= <- _ _]. simpl. lia. }
  cbn [Run.evaluate_batches].
  intros ([data target] & [_ Htarget]%fetch_lengths & Hrun)%bind_Ok.
  destruct (model_call data w) as [out w1].
  apply IH in Hrun.
  pose proof (count_correct_le (predictions out) target).
  cbn [concat]. rewrite length_app. lia.
Qed.

(** X11: on a loader that can be iterated and is not empty, [evaluate]
    returns, and the accuracy it returns is a fraction between 0 and 1:
    every sample is counted at most once. *)
Theorem evaluate_accuracy (dl : DataLoader) (w : world) :
  loader_ok dl → dl_indices dl ≠ [] →
  ∃ q mean_loss w', evaluate dl w = Ok (Finite q, mean_loss, w') ∧
                    (0 <= q)%Q ∧ (q <= 1)%Q.
Proof.
  intros Hdl Hne. unfold Run.evaluate. cbn [rng set_training].
  destruct (loader_iter_batches dl (rng w) (proj1 Hdl)) as (Hperm & Hall & _).
  destruct (loader_iter dl (rng w)) as [batches g]. cbn [fst] in Hall, Hperm.
  edestruct (evaluate_batches_ok dl batches 0 0%Q (set_rng g (set_training false w)))
    as [[[c l] w1] Hrun]; [done| |].
  { eapply Forall_impl; [exact Hall|]. by intros b [_ ?]. }
  rewrite Hrun. cbn [mbind result_bind].
  apply evaluate_batches_count in Hrun.
  rewrite (Permutation_length Hperm), length_seq in Hrun.
  unfold true_div. destruct (length (dl_indices dl) =? 0) eqn:Hlen.
  { apply Nat.eqb_eq in Hlen. by destruct (dl_indices dl). }
  apply Nat.eqb_neq in Hlen.
  cbn [mbind result_bind]. eexists _, _, _. split; [done|].
  unfold Qle. cbn [Qnum Qden]. split; lia.
Qed.

Lemma chunks_fuel_count {A} (fuel n : nat) (l : list A) :
  0 < n → length l ≤ fuel →
  length (chunks_fuel fuel n l) = (length l + n - 1) / n.
Proof.
  intros Hn. revert l. induction fuel as [|fuel IH]; intros l Hl.
  { destruct l; [|simpl in Hl; lia]. simpl. symmetry. apply Nat.div_small. lia. }
  destruct l as [|a l].
  { simpl. symmetry. apply Nat.div_small. lia. }
  cbn [chunks_fuel length]. rewrite IH by (rewrite length_drop; simpl in *; lia).
  rewrite length_drop. cbn [length].
  destruct (decide (n ≤ S (length l))) as [Hge|Hlt].
  - replace (S (length l) + n - 1) with (S (length l) - n + n - 1 + 1 * n) by lia.
    rewrite Nat.div_add by lia. lia.
  - replace (S (length l) - n) with 0 by lia.
    rewrite (Nat.div_small (0 + n - 1)) by lia.
    apply (Nat.div_unique _ _ 1 (length l)); lia.
Qed.

Lemma chunks_fuel_sizes {A} (fuel n : nat) (l : list A) :
  Forall (λ b, length b ≤ n) (chunks_fuel fuel n l).
Proof.
  revert l. induction fuel as [|fuel IH]; intros l; [constructor|].
  destruct l as [|a l]; [constructor|].
  cbn [chunks_fuel]. constructor; [|apply IH]. rewrite length_take. lia.
Qed.

(** X12: one pass over a loader of [n] samples with batch size [b] has
    [ceil(n / b)] batches; none is empty, none is longer than [b], and
    together they hold every sample position exactly once. *)
Theorem loader_iter_batch_count (dl : DataLoader) (g : R) :
  0 < dl_batch_size dl →
  let n := length (dl_indices dl) in
  let b := dl_batch_size dl in
  let batches := (loader_iter dl g).1 in
  length batches = (n + b - 1) / b ∧
  Forall (λ batch, 0 < length batch ≤ b) batches ∧
  concat batches ≡ₚ seq 0 n.
Proof.
  intros Hbs n b batches.
  destruct (loader_iter_batches dl g Hbs) as (Hperm & Hall & _).
  split_and!; [| |done].
  - subst batches. unfold Run.loader_iter.
    pose proof (randperm_perm g (length (dl_indices dl))) as Hp.
    destruct (randperm g _) as [perm g']. cbn [fst] in *.
    unfold chunks. rewrite chunks_fuel_count by done.
    by rewrite (Permutation_length Hp), length_seq.
  - subst batches. unfold Run.loader_iter in *.
    destruct (randperm g _) as [perm g']. cbn [fst] in *.
    pose proof (chunks_fuel_sizes (length perm) (dl_batch_size dl) perm) as Hsz.
    rewrite Forall_forall in Hall, Hsz. apply Forall_forall. intros batch Hb.
    destruct (Hall batch Hb) as [Hne _]. specialize (Hsz batch Hb).
    split; [|done]. destruct batch; [done | simpl; lia].
Qed.

(** X13: for a list of thresholds, iteration [it] uses the entry at
    position [min(it, len - 1)]; only the empty list, which the command
    line cannot produce, raises. *)
Theorem training_threshold_list_entry (ts : list pyfloat) (it : nat) :
  training_threshold (PyList ts) it =
    match ts !! (it `min` (length ts - 1)) with
    | Some t => Ok t
    | None => Raise IndexError
    end.
Proof.
  unfold training_threshold. cbn [py_len mbind result_bind py_subscript].
  destruct (Nat.leb_spec (length ts) it) as [Hle|Hlt].
  - replace (it `min` (length ts - 1)) with (pred (length ts)) by lia.
    rewrite <-last_lookup. destruct (last ts) as [t|] eqn:Hlast.
    + by apply tensor_index_last.
    + apply last_None in Hlast as ->. done.
  - replace (it `min` (length ts - 1)) with it by lia.
    by rewrite tensor_index_nat.
Qed.





Lemma train_batches_stdout (tl el : DataLoader) id t batches (w w' : world) :
  train_batches tl el id t batches w = Ok w' →
  stdout w' = stdout w ∨
  ∃ acc, float_ge acc t = true ∧ stdout w' = stdout w ++ [EarlyTerminated id t acc].
Proof.
  revert w. induction batches as [|batch rest IH]; intros w.
  { intros [= <-]. by left. }
  cbn [Run.train_batches].
  intros ([data target] & _ & Hrun)%bind_Ok.
  pose proof (model_call_same_model data (set_grads (zero_grad (grads w)) w))
    as [Hsame2 _].
  destruct (model_call data _) as [out w2]. cbn [snd] in Hsame2.
  apply bind_Ok in Hrun as ([eb w3] & Hsame3%next_iter_same_model & Hrun).
  apply bind_Ok in Hrun as ([ed et] & _ & Hrun).
  apply bind_Ok in Hrun as ([acc w4] & Hsame4%evaluate_once_same_model & Hrun).
  assert (same_model w w4) as (_ & _ & _ & _ & Hout).
  { eapply same_model_trans; [|exact Hsame4].
    eapply same_model_trans; [|exact Hsame3].
    eapply same_model_trans; [apply set_grads_same_model|exact Hsame2]. }
  destruct (float_ge acc t) eqn:Hge.
  - injection Hrun as <-. right. exists acc. split; [done|]. cbn. by rewrite Hout.
  - apply IH in Hrun.
    destruct (optimizer_step_fields
                (set_grads (backward (cross_entropy out target) (grads w4)) w4))
      as (_ & _ & Hout6).
    cbn in Hout6. rewrite Hout6, Hout in Hrun. done.
Qed.

Lemma train_epochs_stdout (tl el : DataLoader) it t gamma epoch_range (w w' : world) :
  train_epochs tl el it t gamma epoch_range w = Ok w' →
  ∃ lines, stdout w' = stdout w ++ lines ∧
           length lines ≤ length epoch_range ∧
           Forall (λ s, ∃ acc, s = EarlyTerminated it t acc ∧ float_ge acc t = true)
                  lines.
Proof.
  revert w. induction epoch_range as [|epoch epoch_range IH]; intros w.
  { intros [= <-]. exists []. by rewrite app_nil_r. }
  cbn [Run.train_epochs]. intros (w1 & Htrain & Hrest)%bind_Ok.
  rewrite train_unfold in Htrain. apply train_batches_stdout in Htrain.
  apply IH in Hrest as (lines & Hlines & Hlen & Hall). cbn in Hlines, Htrain.
  destruct Htrain as [Hout|(acc & Hge & Hout)]; rewrite Hout in Hlines.
  - exists lines. split_and!; [done|simpl; lia|done].
  - exists (EarlyTerminated it t acc :: lines). split_and!.
    + by rewrite Hlines, <-app_assoc.
    + simpl. lia.
    + constructor; [by exists acc | done].
Qed.

End harness_facts.

(** *** The statements on the concrete instance *)

Lemma sample_randperm_perm g n : (Sample.randperm g n).1 ≡ₚ seq 0 n.
Proof.
  unfold Sample.randperm, rotate. cbn [fst].
  by rewrite Permutation_app_comm, take_drop.
Qed.

Lemma sample_loader_ok : loader_ok Sample.to_long Sample.loader.
Proof. split; [simpl; lia|]. repeat (constructor; [by eexists|]). constructor. Qed.

Example train_sample_inf :
  Sample.train Sample.loader Sample.loader 0 PosInf Sample.start =
    Ok {| params := 2%Z; buffers := tt; training := true; grads := 1%Z;
          opt_state := tt; opt_steps := 2; lr := 1%Q; rng := 3; stdout := [] |}.
Proof. reflexivity. Qed.

Example train_sample_zero :
  Sample.train Sample.loader Sample.loader 0 (Finite 0) Sample.start =
    Ok {| params := 0%Z; buffers := tt; training := true; grads := 0%Z;
          opt_state := tt; opt_steps := 0; lr := 1%Q; rng := 2;
          stdout := [EarlyTerminated 0 (Finite 0) (Finite (1 # 2))] |}.
Proof. reflexivity. Qed.

Example training_threshold_list :
  let ts := PyList [Finite (1 # 2); Finite (3 # 4)] in
  training_threshold ts 0 = Ok (Finite (1 # 2)) ∧
  training_threshold ts 1 = Ok (Finite (3 # 4)) ∧
  training_threshold ts 5 = Ok (Finite (3 # 4)).
Proof. by split_and!. Qed.


Lemma train_epochs_learning_rate_witness :
  (∀ g n, (Sample.randperm g n).1 ≡ₚ seq 0 n) ∧
  loader_ok Sample.to_long Sample.loader ∧
  (dl_indices Sample.loader ≠ [] → dl_indices Sample.loader ≠ []) ∧
  ∃ w', Sample.train_epochs Sample.loader Sample.loader 0 (Finite (1 # 2)) (7 # 10)%Q
          (seq 1 2) Sample.start = Ok w' ∧
        (lr w' == lr Sample.start * (7 # 10) ^ Z.of_nat 2)%Q.
Proof.
  split_and!; [apply sample_randperm_perm | apply sample_loader_ok | done |].
  exact (proj1 (train_epochs_learning_rate Sample.to_long Sample.randperm
                  Sample.forward Sample.predictions Sample.cross_entropy
                  Sample.backward Sample.zero_grad Sample.Adadelta_step
                  sample_randperm_perm Sample.loader Sample.loader 0
                  (Finite (1 # 2)) (7 # 10)%Q 2 Sample.start
                  sample_loader_ok sample_loader_ok (λ H, H))).
Defined.

Lemma evaluation_keeps_parameters_witness :
  (∀ g n, (Sample.randperm g n).1 ≡ₚ seq 0 n) ∧
  loader_ok Sample.to_long Sample.loader ∧
  dl_indices Sample.loader ≠ [] ∧
  is_Ok (Sample.evaluate Sample.loader Sample.start) ∧
  (∀ w' acc mean_loss,
     Sample.evaluate Sample.loader Sample.start = Ok (acc, mean_loss, w') →
     params w' = params Sample.start).
Proof.
  destruct (evaluation_keeps_parameters Sample.to_long Sample.randperm
              Sample.forward Sample.predictions Sample.cross_entropy
              Sample.nll_loss_sum Sample.backward Sample.zero_grad
              Sample.Adadelta_step sample_randperm_perm)
    as (_ & _ & Hparams & Hok & _).
  split_and!; [apply sample_randperm_perm | apply sample_loader_ok | done | |].
  - by apply Hok; [apply sample_loader_ok|].
  - intros w' acc mean_loss. apply Hparams.
Defined.

(** The sample run for C3: four rows, two of them for the landscape, one
    training batch.  The landscape rows [3; 0] are in the batch the
    training loader draws. *)
Example sample_landscape_rows :
  ∃ tl el ll g,
    Sample.make_loaders Sample.args Sample.disk 1 = Ok (tl, el, ll, g) ∧
    map (batch_rows tl) (Sample.loader_iter tl g).1 = [ [2; 3; 0; 1] ] ∧
    ∃ lb w', Sample.landscape_batch ll Sample.start = Ok (lb, w') ∧
             batch_rows ll lb = [3; 0].
Proof. eexists _, _, _, _. split_and!; [reflexivity..|]. by eexists _, _. Qed.

Lemma landscape_rows_are_training_rows_witness :
  (∀ g n, (Sample.randperm g n).1 ≡ₚ seq 0 n) ∧
  ∃ tl el ll g,
    Sample.make_loaders Sample.args Sample.disk 1 = Ok (tl, el, ll, g) ∧
    ∃ lb w', Sample.landscape_batch ll Sample.start = Ok (lb, w') ∧
             batch_rows ll lb ≠ [] ∧
             ∀ row, row ∈ batch_rows ll lb →
               row ∈ concat (map (batch_rows tl) (Sample.loader_iter tl g).1) ∧
               (CSVDataset_len Sample.disk ≤ batch_size Sample.args →
                ∃ b rest, (Sample.loader_iter tl g).1 = b :: rest ∧
                          row ∈ batch_rows tl b).
Proof.
  split; [apply sample_randperm_perm|].
  eexists _, _, _, _. split; [reflexivity|].
  exact (landscape_rows_are_training_rows (P:=Z) (B:=unit) (G:=Z) (O:=unit)
           Sample.randperm sample_randperm_perm Sample.args Sample.disk 1
           _ _ _ _ eq_refl Sample.start 2).
Defined.

(** *** The further properties on the concrete instance *)

Lemma evaluate_once_accuracy_witness :
  let data := [ [1; 2]; [3; 4] ]%Z in
  let target := [0; 1]%Z in
  length target = length data ∧ data ≠ [] ∧
  ∃ q w', Sample.evaluate_once data target Sample.start = Ok (Finite q, w') ∧
          (0 <= q)%Q ∧ (q <= 1)%Q.
Proof.
  intros data target. split; [done|]. split; [done|].
  exact (proj2 (evaluate_once_accuracy Sample.forward Sample.predictions)
           data target Sample.start eq_refl ltac:(done)).
Defined.

Lemma train_outcome_witness :
  (∀ g n, (Sample.randperm g n).1 ≡ₚ seq 0 n) ∧
  loader_ok Sample.to_long Sample.loader ∧
  (dl_indices Sample.loader ≠ [] → dl_indices Sample.loader ≠ []) ∧
  ∃ w', Sample.train Sample.loader Sample.loader 0 (Finite (1 # 2)) Sample.start = Ok w' ∧
        training w' = true ∧ lr w' = lr Sample.start ∧
        ((stdout w' = stdout Sample.start ∧
          opt_steps w' = opt_steps Sample.start + num_batches 4 2) ∨
         (∃ q, (0 <= q)%Q ∧ (q <= 1)%Q ∧ float_ge (Finite q) (Finite (1 # 2)) = true ∧
               stdout w' =
                 stdout Sample.start ++ [EarlyTerminated 0 (Finite (1 # 2)) (Finite q)] ∧
               opt_steps w' < opt_steps Sample.start + num_batches 4 2)).
Proof.
  split_and!; [apply sample_randperm_perm | apply sample_loader_ok | done |].
  exact (train_outcome Sample.to_long Sample.randperm Sample.forward
           Sample.predictions Sample.cross_entropy Sample.backward
           Sample.zero_grad Sample.Adadelta_step sample_randperm_perm
           Sample.loader Sample.loader 0 (Finite (1 # 2)) Sample.start
           sample_loader_ok sample_loader_ok (λ H, H)).
Defined.

Lemma train_threshold_out_of_reach_witness :
  (∀ g n, (Sample.randperm g n).1 ≡ₚ seq 0 n) ∧
  loader_ok Sample.to_long Sample.loader ∧
  (dl_indices Sample.loader ≠ [] → dl_indices Sample.loader ≠ []) ∧
  (Finite 90 = NaN ∨ (∃ c, Finite 90 = Finite c ∧ (1 < c)%Q)) ∧
  ∃ w', Sample.train_epochs Sample.loader Sample.loader 0 (Finite 90) (7 # 10)%Q
          (seq 1 2) Sample.start = Ok w' ∧
        opt_steps w' = opt_steps Sample.start + 2 * num_batches 4 2 ∧
        stdout w' = stdout Sample.start.
Proof.
  assert (Finite 90 = NaN ∨ (∃ c, Finite 90 = Finite c ∧ (1 < c)%Q)) as Ht
    by (right; by exists 90%Q).
  split_and!; [apply sample_randperm_perm | apply sample_loader_ok | done | done |].
  exact (train_threshold_out_of_reach Sample.to_long Sample.randperm Sample.forward
           Sample.predictions Sample.cross_entropy Sample.backward
           Sample.zero_grad Sample.Adadelta_step sample_randperm_perm
           Sample.loader Sample.loader 0 (Finite 90) (7 # 10)%Q 2 Sample.start
           sample_loader_ok sample_loader_ok (λ H, H) Ht).
Defined.

Lemma train_threshold_always_reached_witness :
  (∀ g n, (Sample.randperm g n).1 ≡ₚ seq 0 n) ∧
  loader_ok Sample.to_long Sample.loader ∧
  (dl_indices Sample.loader ≠ [] → dl_indices Sample.loader ≠ []) ∧
  (NegInf = NegInf ∨ (∃ c, NegInf = Finite c ∧ (c <= 0)%Q)) ∧
  ∃ w', Sample.train_epochs Sample.loader Sample.loader 0 NegInf (7 # 10)%Q
          (seq 1 2) Sample.start = Ok w' ∧
        params w' = params Sample.start ∧ opt_steps w' = opt_steps Sample.start.
Proof.
  split_and!; [apply sample_randperm_perm | apply sample_loader_ok | done | by left |].
  exact (train_threshold_always_reached Sample.to_long Sample.randperm Sample.forward
           Sample.predictions Sample.cross_entropy Sample.backward
           Sample.zero_grad Sample.Adadelta_step sample_randperm_perm
           Sample.loader Sample.loader 0 NegInf (7 # 10)%Q 2 Sample.start
           sample_loader_ok sample_loader_ok (λ H, H) (or_introl eq_refl)).
Defined.

Lemma model_mode_after_witness :
  ∃ acc mean_loss w',
    Sample.evaluate Sample.loader Sample.start = Ok (acc, mean_loss, w') ∧
    training Sample.start = true ∧ training w' = false.
Proof.
  eexists _, _, _. split; [reflexivity|]. split; [reflexivity|].
  eapply (proj1 (proj2 (model_mode_after Sample.to_long Sample.randperm
                          Sample.forward Sample.predictions Sample.cross_entropy
                          Sample.nll_loss_sum Sample.backward Sample.zero_grad
                          Sample.Adadelta_step)) Sample.loader Sample.start).
  reflexivity.
Defined.

Lemma evaluate_accuracy_witness :
  (∀ g n, (Sample.randperm g n).1 ≡ₚ seq 0 n) ∧
  loader_ok Sample.to_long Sample.loader ∧
  dl_indices Sample.loader ≠ [] ∧
  ∃ q mean_loss w',
    Sample.evaluate Sample.loader Sample.start = Ok (Finite q, mean_loss, w') ∧
    (0 <= q)%Q ∧ (q <= 1)%Q.
Proof.
  split_and!; [apply sample_randperm_perm | apply sample_loader_ok | done |].
  exact (evaluate_accuracy Sample.to_long Sample.randperm Sample.forward
           Sample.predictions Sample.nll_loss_sum sample_randperm_perm
           Sample.loader Sample.start sample_loader_ok ltac:(done)).
Defined.

Lemma loader_iter_batch_count_witness :
  (∀ g n, (Sample.randperm g n).1 ≡ₚ seq 0 n) ∧
  0 < dl_batch_size Sample.loader ∧
  let batches := (Sample.loader_iter Sample.loader 3).1 in
  length batches = (4 + 2 - 1) / 2 ∧
  Forall (λ batch, 0 < length batch ≤ 2) batches ∧
  concat batches ≡ₚ seq 0 4.
Proof.
  split; [apply sample_randperm_perm|]. split; [simpl; lia|].
  exact (loader_iter_batch_count Sample.randperm sample_randperm_perm
           Sample.loader 3 ltac:(simpl; lia)).
Defined.

(** Five samples in batches of two: three batches, the last one short. *)
Example loader_iter_five_rows :
  (Sample.loader_iter
     {| dl_dataset := Sample.disk; dl_indices := seq 0 5; dl_batch_size := 2 |} 1).1
  = [ [1; 2]; [3; 4]; [0] ].
Proof. reflexivity. Qed.


End RunFacts.

(** ** Averaging landscapes *)

Module LandscapeFacts.
Import Landscape.

Lemma y_at_add (A L : landscape) i j k :
  y_at (add_landscape A L) i j k = lift_plus (y_at A i j k) (y_at L i j k).
Proof.
  unfold y_at, add_landscape. rewrite lookup_zip_with.
  destruct (A !! i) as [la|]; [|done]. simpl.
  destruct (L !! i) as [ll|]; simpl.
  2:{ by destruct (la !! j) as [c|]; simpl; [destruct (c.2 !! k)|]. }
  rewrite lookup_zip_with.
  destruct (la !! j) as [ca|]; [|done]. simpl.
  destruct (ll !! j) as [cl|]; simpl.
  2:{ by destruct (ca.2 !! k). }
  unfold add_curve. simpl. rewrite lookup_zip_with.
  destruct (ca.2 !! k); [|done]. simpl. by destruct (cl.2 !! k).
Qed.

Lemma add_landscape_same (A L : landscape) :
  shape L = shape A →
  shape (add_landscape A L) = shape A ∧ xgrid (add_landscape A L) = xgrid A.
Proof.
  unfold shape, xgrid, add_landscape. revert L.
  induction A as [|la A IH]; intros [|ll L] Hs; try done.
  simpl in Hs. injection Hs as Hl Hs. destruct (IH L Hs) as [IH1 IH2].
  simpl. rewrite IH1, IH2. split; f_equal.
  - clear -Hl. revert ll Hl. induction la as [|ca la IH]; intros [|cl ll] Hl; try done.
    simpl in Hl. injection Hl as _ Hc Hl. simpl.
    f_equal; [|by apply IH]. f_equal. rewrite length_zip_with. lia.
  - clear -Hl. revert ll Hl. induction la as [|ca la IH]; intros [|cl ll] Hl; try done.
    simpl in Hl. injection Hl as _ Hc Hl. simpl. f_equal. by apply IH.
Qed.

(** The running sum over the networks. *)
Lemma foldl_add_landscape (rest : list landscape) (A : landscape) :
  Forall (λ L, shape L = shape A) rest →
  shape (foldl add_landscape A rest) = shape A ∧
  xgrid (foldl add_landscape A rest) = xgrid A ∧
  ∀ i j k s, y_at (foldl add_landscape A rest) i j k = Some s →
    ∃ a ys, y_at A i j k = Some a ∧
            Forall2 (λ L v, y_at L i j k = Some v) rest ys ∧
            (s == a + Qsum ys)%Q.
Proof.
  revert A. induction rest as [|L rest IH]; intros A Hall.
  { split_and!; [done..|]. intros i j k s Hs. exists s, [].
    split_and!; [done|constructor|]. simpl. ring. }
  apply Forall_cons in Hall as [HL Hrest]. cbn [foldl].
  destruct (add_landscape_same A L HL) as [Hshape Hgrid].
  destruct (IH (add_landscape A L)) as (IH1 & IH2 & IH3).
  { eapply Forall_impl; [exact Hrest|]. intros L' HL'. simpl in HL'. congruence. }
  split_and!; [congruence..|].
  intros i j k s Hs. destruct (IH3 i j k s Hs) as (a' & ys & Ha' & Hys & Hsum).
  rewrite y_at_add in Ha'.
  destruct (y_at A i j k) as [a|]; [|done].
  destruct (y_at L i j k) as [v|] eqn:Hv; [|done]. injection Ha' as <-.
  exists a, (v :: ys). split_and!; [done|by constructor|].
  rewrite Hsum. simpl. ring.
Qed.

Lemma y_at_scale (n : nat) (S : landscape) i j k :
  y_at (map (map (scale_curve n)) S) i j k =
    (λ y, Qred (y / inject_Z (Z.of_nat n))) <$> y_at S i j k.
Proof.
  unfold y_at. rewrite lookup_map. destruct (S !! i) as [layer|]; [|done]. simpl.
  rewrite lookup_map. destruct (layer !! j) as [c|]; [|done]. simpl.
  by rewrite lookup_map.
Qed.

Lemma scale_same (n : nat) (S : landscape) :
  shape (map (map (scale_curve n)) S) = shape S ∧
  xgrid (map (map (scale_curve n)) S) = xgrid S.
Proof.
  unfold shape, xgrid. rewrite !map_map. split.
  - apply map_ext. intros layer. rewrite map_map. apply map_ext. intros c.
    simpl. by rewrite length_map.
  - apply map_ext. intros layer. rewrite map_map. by apply map_ext.
Qed.

(** C5: the average of landscapes of one shape over a shared grid has
    that shape and that grid, and each of its y-values is the arithmetic
    mean of the y-values of the networks at the same layer, dimension and
    grid position; the curves [1,2,3], [3,2,1] and [2,2,2] over a common
    grid average to [2,2,2]. *)
Theorem average_is_elementwise_mean (L0 : landscape) (rest : list landscape) :
  Forall (λ L, shape L = shape L0) rest →
  Forall (λ L, xgrid L = xgrid L0) rest →
  (∃ avg,
     average_across_networks (L0 :: rest) = Ok avg ∧
     shape avg = shape L0 ∧
     Forall (λ L, xgrid avg = xgrid L) (L0 :: rest) ∧
     ∀ i j k y, y_at avg i j k = Some y →
       ∃ ys, Forall2 (λ L v, y_at L i j k = Some v) (L0 :: rest) ys ∧
             (y == mean ys)%Q) ∧
  (∀ grid : list Q,
     average_across_networks
       [ [ [ (grid, [1; 2; 3]%Q) ] ];
         [ [ (grid, [3; 2; 1]%Q) ] ];
         [ [ (grid, [2; 2; 2]%Q) ] ] ]
     = Ok [ [ (grid, [2; 2; 2]%Q) ] ]).
Proof.
  intros Hshape Hgrid. split.
  - unfold average_across_networks.
    replace (forallb _ rest) with true; last first.
    { symmetry. apply forallb_forall. intros L HL%list_elem_of_In.
      rewrite Forall_forall in Hshape. apply bool_decide_eq_true. by apply Hshape. }
    eexists. split; [done|].
    destruct (foldl_add_landscape rest L0 Hshape) as (Hs & Hg & Hy).
    destruct (scale_same (length (L0 :: rest)) (foldl add_landscape L0 rest))
      as [Hs' Hg'].
    split_and!.
    + congruence.
    + constructor; [congruence|].
      eapply Forall_impl; [exact Hgrid|]. intros L HL. simpl in HL. congruence.
    + intros i j k y. rewrite y_at_scale.
      destruct (y_at (foldl add_landscape L0 rest) i j k) as [s|] eqn:Hsum; [|done].
      intros [= <-]. destruct (Hy i j k s Hsum) as (a & ys & Ha & Hys & Heq).
      exists (a :: ys). split; [by constructor|].
      rewrite Qred_correct, Heq. unfold mean. cbn [Qsum foldr length].
      by rewrite (Forall2_length _ _ _ Hys).
  - intros grid. unfold average_across_networks.
    replace (forallb _ _) with true; [reflexivity|].
    symmetry. apply forallb_forall. intros L HL. apply bool_decide_eq_true.
    by destruct HL as [<-|[<-|[]]].
Qed.

Lemma average_is_elementwise_mean_witness :
  let L0 := [ [ ([0; 1]%Q, [1; 5]%Q) ] ] in
  let rest := [ [ [ ([0; 1]%Q, [3; 7]%Q) ] ] ] in
  Forall (λ L, shape L = shape L0) rest ∧
  Forall (λ L, xgrid L = xgrid L0) rest ∧
  ∃ avg,
    average_across_networks (L0 :: rest) = Ok avg ∧
    shape avg = shape L0 ∧
    Forall (λ L, xgrid avg = xgrid L) (L0 :: rest) ∧
    ∀ i j k y, y_at avg i j k = Some y →
      ∃ ys, Forall2 (λ L v, y_at L i j k = Some v) (L0 :: rest) ys ∧
            (y == mean ys)%Q.
Proof.
  intros L0 rest.
  assert (Forall (λ L, shape L = shape L0) rest) as Hs by (by repeat constructor).
  assert (Forall (λ L, xgrid L = xgrid L0) rest) as Hg by (by repeat constructor).
  split_and!; [done|done|].
  exact (proj1 (average_is_elementwise_mean L0 rest Hs Hg)).
Defined.

(** The two networks of the witness average to [2, 6]. *)
Example average_two_networks :
  average_across_networks
    [ [ [ ([0; 1]%Q, [1; 5]%Q) ] ]; [ [ ([0; 1]%Q, [3; 7]%Q) ] ] ]
  = Ok [ [ ([0; 1]%Q, [2; 6]%Q) ] ].
Proof. reflexivity. Qed.

(** Landscapes of different shape are refused. *)
Example average_shape_mismatch :
  average_across_networks
    [ [ [ ([0; 1]%Q, [1; 5]%Q) ] ]; [ [ ([0; 1]%Q, [3; 7]%Q); ([0; 1]%Q, [0; 0]%Q) ] ] ]
  = Raise ShapeMismatchError.
Proof. reflexivity. Qed.

End LandscapeFacts.

(** ** The result writer and the driver *)

Module WriterFacts.
Import CsvLoader Landscape Run.






Lemma write_dims_dirs i j0 (layer : list curve) fs :
  dirs (write_dims i j0 layer fs) = dirs fs.
Proof.
  revert j0 fs. induction layer as [|c layer IH]; intros j0 fs; [done|].
  cbn [write_dims]. by rewrite IH.
Qed.



Lemma write_layers_dirs i0 (L : landscape) fs :
  dirs (write_layers i0 L fs) = dirs fs.
Proof.
  revert i0 fs. induction L as [|layer L IH]; intros i0 fs; [done|].
  cbn [write_layers]. by rewrite IH, write_dims_dirs.
Qed.




(** A landscape of one layer with two dimensions, written to an empty
    file system. *)
Example save_csv_files_sample :
  let averages := [ [ ([0; 1]%Q, [2; 6]%Q); ([0; 1]%Q, [0; 4]%Q) ] ] in
  let fs := save_csv_files averages {| dirs := ∅; files := ∅ |} in
  csv_path 0 1 = "./landscapes_csv/layer0dim1.csv" ∧
  files fs !! "./landscapes_csv/layer0dim0.csv" = Some (CsvColumn [2; 6]%Q) ∧
  files fs !! "./landscapes_csv/layer0dim1.csv" = Some (CsvColumn [0; 4]%Q) ∧
  files fs !! "./landscapes_csv/layer1dim0.csv" = None.
Proof. by vm_compute. Qed.

Section driver_facts.
Context {F T P B G O R output loss LC : Type}.
Variable float_of_string : string → option F.
Variable to_float32 : F → T.
Variable to_long : T → Z.
Variable manual_seed : Z → R.
Variable randperm : R → nat → list nat * R.
Variable forward : P → B → bool → R → list (list T) → output * B * R.
Variable predictions : output → list Z.
Variable cross_entropy : output → list Z → loss.
Variable backward : loss → G → G.
Variable zero_grad : G → G.
Variable Adadelta_step : O → Q → P → G → O * P.
Variable Net_init : R → P * B * R.
Variable Adadelta_init : P → O.
Variable no_grad : G.
Variable landscapes_diagrams_from_model :
  P → B → bool → R → list (list T) → LC → nat → landscape * R.

Local Abbreviation main :=
  (main float_of_string to_float32 to_long manual_seed randperm forward predictions
     cross_entropy backward zero_grad Adadelta_step Net_init Adadelta_init no_grad
     landscapes_diagrams_from_model).

(** When [main] returns with CSV output on and no pickle file asked for,
    the files are those the CSV writer makes of the averaged landscape. *)
Lemma main_save_csv (args : Args (LC:=LC)) csv_rows fs fs' out :
  main args csv_rows fs = Ok (fs', out) →
  save_csv args = true → save args = None →
  ∃ landscapes_per_network averages,
    average_across_networks landscapes_per_network = Ok averages ∧
    fs' = save_csv_files averages fs.
Proof.
  unfold Run.main. intros Hrun Hcsv Hsave.
  apply bind_Ok in Hrun as (ds & _ & Hrun).
  apply bind_Ok in Hrun as ([[[tl el] ll] g1] & _ & Hrun).
  apply bind_Ok in Hrun as ([[g lines] nets] & _ & Hrun).
  apply bind_Ok in Hrun as (averages & Havg & Hrun).
  rewrite Hcsv, Hsave in Hrun. injection Hrun as <- _.
  by exists nets, averages.
Qed.

Local Abbreviation run_network :=
  (run_network to_long randperm forward predictions cross_entropy backward
     zero_grad Adadelta_step Net_init Adadelta_init no_grad
     landscapes_diagrams_from_model).

(** With the float default of [--training_threshold] the first network
    is never trained: resolving its threshold raises TypeError. *)
Lemma run_network_scalar_threshold (args : Args (LC:=LC)) tl el ll st it t :
  args_training_threshold args = PyFloat t →
  run_network args tl el ll st it = Raise TypeError.
Proof.
  intros Ht. unfold Run.run_network. destruct st as [[g out] nets].
  by rewrite Ht.
Qed.

Lemma main_scalar_threshold (args : Args (LC:=LC)) csv_rows fs ds tl el ll g t :
  CSVDataset_init float_of_string to_float32 csv_rows = Ok ds →
  make_loaders randperm args ds (manual_seed (seed args)) = Ok (tl, el, ll, g) →
  args_training_threshold args = PyFloat t →
  0 < iterations args →
  main args csv_rows fs = Raise TypeError.
Proof.
  intros Hds Hmk Ht Hit. unfold Run.main. rewrite Hds. cbn [mbind result_bind].
  rewrite Hmk. cbn [mbind result_bind].
  destruct (iterations args) as [|n]; [lia|].
  cbn [seq for_each]. by rewrite (run_network_scalar_threshold _ _ _ _ _ _ t).
Qed.

(** *** Further properties of the driver *)

Lemma run_network_appends (args : Args (LC:=LC)) tl el ll g out nets it g' out' nets' :
  run_network args tl el ll (g, out, nets) it = Ok (g', out', nets') →
  ∃ L, nets' = nets ++ [L].
Proof.
  unfold Run.run_network.
  intros (t & _ & (w1 & _ & Hrun)%bind_Ok)%bind_Ok.
  apply bind_Ok in Hrun as ([batch w3] & _ & Hrun).
  apply bind_Ok in Hrun as ([data target] & _ & Hrun).
  destruct (landscapes_diagrams_from_model _ _ _ _ _ _ _) as [L g2].
  injection Hrun as _ _ <-. by exists L.
Qed.

Lemma for_each_run_network_count (args : Args (LC:=LC)) tl el ll its g out nets
    g' out' nets' :
  for_each (run_network args tl el ll) its (g, out, nets) = Ok (g', out', nets') →
  length nets' = length nets + length its.
Proof.
  revert g out nets. induction its as [|it its IH]; intros g out nets.
  { intros [= _ _ <-]. simpl. lia. }
  cbn [for_each].
  intros ([[g1 out1] nets1] & [L ->]%run_network_appends & Hrest%IH)%bind_Ok.
  rewrite Hrest, length_app. simpl. lia.
Qed.

(** What [main] has computed when it returns: one landscape per network,
    their average, and the files made of the average. *)
Lemma main_Ok (args : Args (LC:=LC)) csv_rows fs fs' out :
  main args csv_rows fs = Ok (fs', out) →
  ∃ nets averages,
    length nets = iterations args ∧
    average_across_networks nets = Ok averages ∧
    fs' = (let fs1 := if save_csv args then save_csv_files averages fs else fs in
           match save args with
           | Some path =>
               if decide (path = "") then fs1 else pickle_dump path averages fs1
           | None => fs1
           end).
Proof.
  unfold Run.main. intros Hrun.
  apply bind_Ok in Hrun as (ds & _ & Hrun).
  apply bind_Ok in Hrun as ([[[tl el] ll] g1] & _ & Hrun).
  apply bind_Ok in Hrun as ([[g lines] nets] & Hnets%for_each_run_network_count & Hrun).
  apply bind_Ok in Hrun as (averages & Havg & Hrun).
  injection Hrun as <- _. exists nets, averages.
  rewrite length_seq in Hnets. by split_and!.
Qed.



Lemma write_dims_keeps i j0 (layer : list curve) fs p :
  is_Some (files fs !! p) → is_Some (files (write_dims i j0 layer fs) !! p).
Proof.
  revert j0 fs. induction layer as [|c layer IH]; intros j0 fs Hp; [done|].
  cbn [write_dims]. apply IH. cbn [savetxt files].
  apply lookup_insert_is_Some. destruct (decide (csv_path i j0 = p)); auto.
Qed.

Lemma write_layers_keeps i0 (L : landscape) fs p :
  is_Some (files fs !! p) → is_Some (files (write_layers i0 L fs) !! p).
Proof.
  revert i0 fs. induction L as [|layer L IH]; intros i0 fs Hp; [done|].
  cbn [write_layers]. by apply IH, write_dims_keeps.
Qed.

(** X17: a run never removes anything: every directory and every file of
    the file system it starts from is still there when [main] returns
    (a file may have new content). *)
Theorem main_keeps_files (args : Args (LC:=LC)) csv_rows fs fs' out :
  main args csv_rows fs = Ok (fs', out) →
  dirs fs ⊆ dirs fs' ∧
  ∀ p, is_Some (files fs !! p) → is_Some (files fs' !! p).
Proof.
  intros (nets & averages & _ & _ & ->)%main_Ok.
  set (fs1 := if save_csv args then save_csv_files averages fs else fs).
  assert (dirs fs ⊆ dirs fs1 ∧ ∀ p, is_Some (files fs !! p) → is_Some (files fs1 !! p))
    as [Hdirs Hfiles].
  { subst fs1. destruct (save_csv args); [|done]. unfold save_csv_files. split.
    - rewrite write_layers_dirs. case_decide; [done|]. cbn [mkdir dirs]. set_solver.
    - intros p Hp. apply write_layers_keeps. by case_decide. }
  cbn zeta. fold fs1. destruct (save args) as [path|]; [|done].
  case_decide; [done|]. cbn [pickle_dump dirs files]. split; [done|].
  intros p Hp%Hfiles. apply lookup_insert_is_Some.
  destruct (decide (path = p)); auto.
Qed.

(** X18: a batch size of zero or [data_samples] of zero makes [main] raise
    ValueError when the loaders are built, after the file has been loaded
    and before any network is trained. *)
Theorem main_zero_batch_size (args : Args (LC:=LC)) csv_rows fs ds :
  CSVDataset_init float_of_string to_float32 csv_rows = Ok ds →
  batch_size args = 0 ∨ data_samples args = 0 →
  main args csv_rows fs = Raise ValueError.
Proof.
  intros Hds Hzero. unfold Run.main. rewrite Hds. cbn [mbind result_bind].
  unfold Run.make_loaders, Run.random_split, DataLoader_new.
  destruct (CSVDataset_len ds <? data_samples args); [done|].
  destruct (randperm _ _) as [perm g1]. cbn [mbind result_bind].
  destruct Hzero as [-> | ->]; [done|].
  by destruct (batch_size args =? 0).
Qed.

(** X19: what one network prints.  A pass of the loop that returns has
    printed the line that training begins, then at most one early-stop
    line per epoch, each with an accuracy that reaches the threshold of this
    iteration, then the line that the landscape computation begins. *)
Theorem run_network_output (args : Args (LC:=LC)) tl el ll g out nets it g' out' nets' :
  run_network args tl el ll (g, out, nets) it = Ok (g', out', nets') →
  ∃ t lines,
    training_threshold (args_training_threshold args) it = Ok t ∧
    out' = out ++ [BeginTraining it] ++ lines ++ [BeginLandscape it] ∧
    length lines ≤ epochs args ∧
    Forall (λ s, ∃ acc, s = EarlyTerminated it t acc ∧ float_ge acc t = true) lines.
Proof.
  unfold Run.run_network, Run.new_network, Run.landscape_batch.
  destruct (Net_init g) as [[p b] g1].
  intros (t & Ht & (w1 & Hep%RunFacts.train_epochs_stdout & Hrun)%bind_Ok)%bind_Ok.
  apply bind_Ok in Hrun as ([batch w3] & Hnext%RunFacts.next_iter_same_model & Hrun).
  apply bind_Ok in Hrun as ([data target] & _ & Hrun).
  destruct (landscapes_diagrams_from_model _ _ _ _ _ _ _) as [L g2].
  injection Hrun as _ <- _.
  destruct Hep as (lines & Hlines & Hlen & Hall).
  destruct Hnext as (_ & _ & _ & _ & Hout3).
  exists t, lines. rewrite length_seq in Hlen. split_and!; [done| |done|done].
  rewrite Hout3. cbn in *. rewrite Hlines. by rewrite <-!app_assoc.
Qed.

End driver_facts.

(** The driver on the sample file: one network, one layer, one dimension,
    and exactly one CSV file in the new directory. *)
Example main_sample :
  ∃ fs, Sample.main Sample.args Sample.disk_rows {| dirs := ∅; files := ∅ |}
          = Ok (fs, [BeginTraining 0; BeginLandscape 0]) ∧
        elements (dirs fs) = ["./landscapes_csv/"] ∧
        map_to_list (files fs) =
          [("./landscapes_csv/layer0dim0.csv", CsvColumn [1; 2]%Q)].
Proof. eexists. split; [by vm_compute|]. by vm_compute. Qed.

(** The same run without [--training_threshold]. *)
Example main_sample_default_threshold :
  let args := {| iterations := 1; args_training_threshold := PyFloat PosInf;
                 batch_size := 64; epochs := 1; args_lr := 1%Q; gamma := (7 # 10)%Q;
                 seed := 1%Z; landscape_settings := tt; data_samples := 2;
                 save := None; save_csv := true |} in
  Sample.main args Sample.disk_rows {| dirs := ∅; files := ∅ |} = Raise TypeError.
Proof. by vm_compute. Qed.



(** Both outputs of the run above. *)
Example main_sample_both_outputs :
  let args := {| iterations := 1; args_training_threshold := PyList [PosInf];
                 batch_size := 64; epochs := 1; args_lr := 1%Q; gamma := (7 # 10)%Q;
                 seed := 1%Z; landscape_settings := tt; data_samples := 2;
                 save := Some "average.pkl"; save_csv := true |} in
  ∃ fs out,
    Sample.main args Sample.disk_rows {| dirs := ∅; files := ∅ |} = Ok (fs, out) ∧
    files fs !! "average.pkl" = Some (Pickle [ [ ([0; 1]%Q, [1; 2]%Q) ] ]) ∧
    files fs !! "./landscapes_csv/layer0dim0.csv" = Some (CsvColumn [1; 2]%Q).
Proof. intros args. eexists _, _. split; [by vm_compute|]. by vm_compute. Qed.

Lemma main_keeps_files_witness :
  let fs := {| dirs := {["results"]};
               files := {["notes.txt" := CsvColumn [1%Q]]} |} in
  ∃ fs' out,
    Sample.main Sample.args Sample.disk_rows fs = Ok (fs', out) ∧
    dirs fs ⊆ dirs fs' ∧
    ∀ p, is_Some (files fs !! p) → is_Some (files fs' !! p).
Proof.
  intros fs.
  eexists _, _. split; [by vm_compute|].
  refine (main_keeps_files Sample.float_of_string Sample.to_float32
           Sample.to_long Sample.manual_seed Sample.randperm Sample.forward
           Sample.predictions Sample.cross_entropy Sample.backward
           Sample.zero_grad Sample.Adadelta_step Sample.Net_init (λ _, tt) 0%Z
           Sample.landscapes_diagrams_from_model
           Sample.args Sample.disk_rows fs _ _ _).
  by vm_compute.
Defined.

Lemma main_zero_batch_size_witness :
  let args := {| iterations := 1; args_training_threshold := PyList [PosInf];
                 batch_size := 0; epochs := 1; args_lr := 1%Q; gamma := (7 # 10)%Q;
                 seed := 1%Z; landscape_settings := tt; data_samples := 2;
                 save := None; save_csv := true |} in
  Sample.init Sample.disk_rows = Ok Sample.disk ∧
  (batch_size args = 0 ∨ data_samples args = 0) ∧
  Sample.main args Sample.disk_rows {| dirs := ∅; files := ∅ |} = Raise ValueError.
Proof.
  intros args. split; [reflexivity|]. split; [by left|].
  by apply (main_zero_batch_size Sample.float_of_string Sample.to_float32
              Sample.to_long Sample.manual_seed Sample.randperm Sample.forward
              Sample.predictions Sample.cross_entropy Sample.backward
              Sample.zero_grad Sample.Adadelta_step Sample.Net_init (λ _, tt) 0%Z
              Sample.landscapes_diagrams_from_model args Sample.disk_rows _
              Sample.disk eq_refl (or_introl eq_refl)).
Defined.

Lemma run_network_output_witness :
  let tl := {| dl_dataset := Sample.disk; dl_indices := seq 0 4; dl_batch_size := 64 |} in
  let ll := {| dl_dataset := Sample.disk; dl_indices := [3; 0]; dl_batch_size := 2 |} in
  let args := {| iterations := 1; args_training_threshold := PyList [Finite (1 # 4)];
                 batch_size := 64; epochs := 3; args_lr := 1%Q; gamma := (7 # 10)%Q;
                 seed := 1%Z; landscape_settings := tt; data_samples := 2;
                 save := None; save_csv := true |} in
  ∃ g' out' nets',
    Run.run_network Sample.to_long Sample.randperm Sample.forward Sample.predictions
      Sample.cross_entropy Sample.backward Sample.zero_grad Sample.Adadelta_step
      Sample.Net_init (λ _, tt) 0%Z Sample.landscapes_diagrams_from_model
      args tl Sample.loader ll (2, [], []) 0 = Ok (g', out', nets') ∧
    ∃ t lines,
      training_threshold (args_training_threshold args) 0 = Ok t ∧
      out' = [] ++ [BeginTraining 0] ++ lines ++ [BeginLandscape 0] ∧
      length lines ≤ epochs args ∧
      Forall (λ s, ∃ acc, s = EarlyTerminated 0 t acc ∧ float_ge acc t = true) lines.
Proof.
  intros tl ll args.
  eexists _, _, _. split; [by vm_compute|].
  refine (run_network_output Sample.to_long Sample.randperm Sample.forward
           Sample.predictions Sample.cross_entropy Sample.backward Sample.zero_grad
           Sample.Adadelta_step Sample.Net_init (λ _, tt) 0%Z
           Sample.landscapes_diagrams_from_model args tl Sample.loader ll
           2 [] [] 0 _ _ _ _).
  by vm_compute.
Defined.

End WriterFacts.
